(** * FlashRead backend: request shaping and response normalisation

    A shallow embedding of [src/backend/server.js]: the two Express
    handlers [GET /api/news] and [POST /api/ai/enrich], the helper
    [normalizeArticle], and the part of the JavaScript run time they rely
    on (strings, numbers, JSON values, [JSON.parse], [String(...)],
    truthiness, property access and the serialisation done by [res.json]).

    Layout: the run-time model first ([JSString], [Number], [JsVal],
    [JSON]), then the effect monad of a handler, then the handlers, then
    the properties. *)

From Stdlib Require Import ZArith NArith List String Ascii Bool Lia.
From Stdlib Require Import DecimalString.
From Stdlib Require Import Floats.SpecFloat.
Import ListNotations.

Set Implicit Arguments.
Set Warnings "-register-all".

(* ===================================================================== *)
(** ** Strings

    A JavaScript string is a finite sequence of UTF-16 code units.  A code
    unit is kept as an [N]; literals of the source are written [str "..."]
    (every literal the backend uses in the modelled paths is ASCII). *)
(* ===================================================================== *)

Module JSString.

Definition code_unit := N.
Definition jsstring := list code_unit.

Definition str (s : string) : jsstring :=
  map N_of_ascii (list_ascii_of_string s).

Fixpoint eqb (a b : jsstring) : bool :=
  match a, b with
  | [], [] => true
  | x :: a', y :: b' => N.eqb x y && eqb a' b'
  | _, _ => false
  end.

(** [s.slice(i, j)] and [arr.slice(i, j)] for integer bounds with
    [0 <= i] and [0 <= j]: the elements at positions [i .. j-1] that exist. *)
Definition slice {A} (l : list A) (i j : nat) : list A :=
  firstn (j - i) (skipn i l).

(** ECMAScript WhiteSpace and LineTerminator code points, which
    [String.prototype.trim] strips: TAB, LF, VT, FF, CR, SP, NBSP,
    U+1680, U+2000..U+200A, U+2028, U+2029, U+202F, U+205F, U+3000,
    U+FEFF. *)
Definition is_white_space (c : code_unit) : bool :=
  ((9 <=? c) && (c <=? 13) || (c =? 32) || (c =? 160) || (c =? 5760)
   || (8192 <=? c) && (c <=? 8202) || (c =? 8232) || (c =? 8233)
   || (c =? 8239) || (c =? 8287) || (c =? 12288) || (c =? 65279))%N.

Fixpoint trimStart (s : jsstring) : jsstring :=
  match s with
  | c :: s' => if is_white_space c then trimStart s' else s
  | [] => []
  end.

Definition trimEnd (s : jsstring) : jsstring := rev (trimStart (rev s)).

Definition trim (s : jsstring) : jsstring := trimEnd (trimStart s).

(** [String.prototype.toLowerCase]. The case pairs are tabulated for Basic
    Latin and the Latin-1 Supplement: A-Z, and U+00C0..U+00DE except the
    multiplication sign. Below U+0100 these are all the capitals there are
    and none of them has a lowering that depends on its neighbours, so on a
    [tabulated] string the result is the one JavaScript computes. A code
    unit from U+0100 on is left as it is, whereas JavaScript lowers the
    capitals of the other blocks too: a statement about the letters of a
    lowered string is made for tabulated strings. *)
Definition lower_unit (c : code_unit) : code_unit :=
  (if (65 <=? c) && (c <=? 90) then c + 32
   else if (192 <=? c) && (c <=? 222) && negb (c =? 215) then c + 32
   else c)%N.

Definition toLowerCase (s : jsstring) : jsstring := map lower_unit s.

(** The strings on which [toLowerCase] is exact: every code unit is in
    Basic Latin or the Latin-1 Supplement. *)
Definition tabulated (s : jsstring) : bool :=
  forallb (fun c => (c <? 256)%N) s.

(** [parts.join(sep)] once every part has been converted to a string. *)
Fixpoint join (sep : jsstring) (parts : list jsstring) : jsstring :=
  match parts with
  | [] => []
  | [p] => p
  | p :: rest => p ++ sep ++ join sep rest
  end.

Definition of_N (n : N) : jsstring := str (NilZero.string_of_uint (N.to_uint n)).

End JSString.
Import JSString.

(* ===================================================================== *)
(** ** Numbers

    A JavaScript Number is an IEEE 754 binary64 value: [spec_float] at
    precision 53 and maximal exponent 1024. *)
(* ===================================================================== *)

Module Number.

Local Open Scope Z_scope.

Definition prec : Z := 53.
Definition emax : Z := 1024.
Definition number := spec_float.

(** The Number nearest to [(-1)^neg * m * 10^e] (round to nearest, ties to
    even): the value of a decimal literal.  The quotient of the two
    integers is rounded once, by [SFdiv]. *)
Definition of_decimal (neg : bool) (m e : Z) : number :=
  match m * 10 ^ Z.max e 0, 10 ^ Z.max (- e) 0 with
  | Zpos n, Zpos d =>
      SFdiv prec emax (S754_finite neg n 0) (S754_finite false d 0)
  | _, _ => S754_zero neg
  end.

Definition eqb_finite (x : number) (m : positive) (e : Z) : bool :=
  match x with
  | S754_finite false m' e' => Pos.eqb m m' && Z.eqb e e'
  | _ => false
  end.

(** [ToBoolean] of a Number: [+0], [-0] and [NaN] are falsy. *)
Definition truthy (x : number) : bool :=
  match x with
  | S754_zero _ | S754_nan => false
  | _ => true
  end.

Definition is_finite (x : number) : bool :=
  match x with
  | S754_infinity _ | S754_nan => false
  | _ => true
  end.

(** *** [Number::toString] (radix 10) *)

(** Number of decimal digits of [z >= 1]. *)
Fixpoint digits10 (fuel : nat) (z : Z) : Z :=
  match fuel with
  | O => 1
  | S f => if z <? 10 then 1 else 1 + digits10 f (z / 10)
  end.

(** Least [j >= j0] with [den <= num * 10^(j - j0 + 1)]. *)
Fixpoint lead10 (fuel : nat) (num den j : Z) : Z :=
  match fuel with
  | O => j
  | S f => if den <=? num * 10 then j else lead10 f (num * 10) den (j + 1)
  end.

(** The [n] with [10^(n-1) <= num/den < 10^n]. *)
Definition decimal_exponent (num den : Z) : Z :=
  if den <=? num then digits10 400 (num / den)
  else 1 - lead10 400 num den 1.

(** The decimal significand with [k] digits for [m * 2^e], when one of
    the two [k]-digit neighbours reads back as the same Number: the
    nearer one, the even one on a tie. *)
Definition candidate (m : positive) (e : Z) (n k : Z) : option Z :=
  let num := Zpos m * 2 ^ Z.max e 0 in
  let den := 2 ^ Z.max (- e) 0 in
  let p := k - n in
  let num' := num * 10 ^ Z.max p 0 in
  let den' := den * 10 ^ Z.max (- p) 0 in
  let lo := num' / den' in
  let r := num' mod den' in
  let hi := lo + 1 in
  let ok c := eqb_finite (of_decimal false c (n - k)) m e in
  if r =? 0 then (if ok lo then Some lo else None)
  else
    match ok lo, ok hi with
    | true, true =>
        match 2 * r ?= den' with
        | Lt => Some lo
        | Gt => Some hi
        | Eq => Some (if Z.even lo then lo else hi)
        end
    | true, false => Some lo
    | false, true => Some hi
    | false, false => None
    end.

(** The shortest significand: least [k] in [k0 .. k0 + fuel - 1]. *)
Fixpoint shortest (fuel : nat) (m : positive) (e : Z) (n k : Z) : Z * Z :=
  match fuel with
  | O => (0, k)
  | S f =>
      match candidate m e n k with
      | Some c => (c, k)
      | None => shortest f m e n (k + 1)
      end
  end.

Definition zeros (n : Z) : jsstring := repeat 48%N (Z.to_nat n).

Definition finite_to_string (m : positive) (e : Z) : jsstring :=
  let n0 := decimal_exponent (Zpos m * 2 ^ Z.max e 0) (2 ^ Z.max (- e) 0) in
  let '(c, k) := shortest 17 m e n0 1 in
  (* [c = 10^k] is the significand [10^(k-1)] one decade up *)
  let '(s, n) := if c =? 10 ^ k then (c / 10, n0 + 1) else (c, n0) in
  let ds := of_N (Z.to_N s) in
  let exponent :=
    str "e" ++ (if n - 1 <? 0 then str "-" else str "+")
            ++ of_N (Z.to_N (Z.abs (n - 1))) in
  if (k <=? n) && (n <=? 21) then ds ++ zeros (n - k)
  else if (0 <? n) && (n <=? 21) then
    firstn (Z.to_nat n) ds ++ str "." ++ skipn (Z.to_nat n) ds
  else if (-6 <? n) && (n <=? 0) then str "0." ++ zeros (- n) ++ ds
  else if k =? 1 then ds ++ exponent
  else firstn 1 ds ++ str "." ++ skipn 1 ds ++ exponent.

Definition to_string (x : number) : jsstring :=
  match x with
  | S754_nan => str "NaN"
  | S754_zero _ => str "0"
  | S754_infinity s => (if s then str "-" else []) ++ str "Infinity"
  | S754_finite s m e => (if s then str "-" else []) ++ finite_to_string m e
  end.

End Number.

Import Number.

(* ===================================================================== *)
(** ** Values

    The values the handlers see are data: what [JSON.parse], the query
    parser, the body parser and the two HTTP clients hand over, and the
    objects the handlers build.  None of them is callable.

    An object keeps its own properties in insertion order.  An array is an
    object too: besides its elements it carries the named properties
    assigned to it ([parsed.summary100 = ...] when [parsed] is an array). *)
(* ===================================================================== *)

Inductive JsVal : Type :=
| JUndefined
| JNull
| JBool (b : bool)
| JNum (x : number)
| JStr (s : jsstring)
| JArr (elems : list JsVal) (named : list (jsstring * JsVal))
| JObj (props : list (jsstring * JsVal)).

Definition props_t := list (jsstring * JsVal).

(** Exceptions a handler can meet; each is caught by the handler's
    [try ... catch]. *)
Inductive exn : Type :=
| TypeError
| SyntaxError
| UpstreamFailure.

Inductive result (A : Type) : Type :=
| Ok (a : A)
| Throw (e : exn).
Arguments Ok {A} a.
Arguments Throw {A} e.

Definition rbind {A B} (r : result A) (k : A -> result B) : result B :=
  match r with
  | Ok a => k a
  | Throw e => Throw e
  end.

Declare Scope result_scope.
Delimit Scope result_scope with result.
Notation "'let?' x ':=' r 'in' k" := (rbind r (fun x => k))
  (at level 10, x name, r at level 100, k at level 200) : result_scope.

Module Js.

(** [ToBoolean]. *)
Definition truthy (v : JsVal) : bool :=
  match v with
  | JUndefined | JNull => false
  | JBool b => b
  | JNum x => Number.truthy x
  | JStr s => match s with [] => false | _ => true end
  | JArr _ _ | JObj _ => true
  end.

(** [a || b] on values already computed. *)
Definition or (a b : JsVal) : JsVal := if truthy a then a else b.

Definition nullish (v : JsVal) : bool :=
  match v with
  | JUndefined | JNull => true
  | _ => false
  end.

Fixpoint lookup (k : jsstring) (ps : props_t) : option JsVal :=
  match ps with
  | [] => None
  | (k', v) :: ps' => if JSString.eqb k k' then Some v else lookup k ps'
  end.

Definition has (k : jsstring) (ps : props_t) : bool :=
  match lookup k ps with Some _ => true | None => false end.

(** Assignment of an own data property: in place when the key exists,
    appended otherwise. *)
Fixpoint update (k : jsstring) (x : JsVal) (ps : props_t) : props_t :=
  match ps with
  | [] => [(k, x)]
  | (k', v) :: ps' =>
      if JSString.eqb k k' then (k', x) :: ps' else (k', v) :: update k x ps'
  end.

Fixpoint remove (k : jsstring) (ps : props_t) : props_t :=
  match ps with
  | [] => []
  | (k', v) :: ps' =>
      if JSString.eqb k k' then remove k ps' else (k', v) :: remove k ps'
  end.

Definition own (k : jsstring) (ps : props_t) : JsVal :=
  match lookup k ps with Some v => v | None => JUndefined end.

(** [v.k] for the property names the backend reads.  None of them is an
    array index, [length], or a name the built-in prototypes define, so on
    an array only the named properties answer, on a primitive nothing
    does, and an absent own property reads as [undefined]. *)
Definition get (v : JsVal) (k : jsstring) : result JsVal :=
  match v with
  | JUndefined | JNull => Throw TypeError
  | JObj ps => Ok (own k ps)
  | JArr _ named => Ok (own k named)
  | JBool _ | JNum _ | JStr _ => Ok JUndefined
  end.

(** [v?.k]. *)
Definition get_opt (v : JsVal) (k : jsstring) : JsVal :=
  match v with
  | JUndefined | JNull => JUndefined
  | JObj ps => own k ps
  | JArr _ named => own k named
  | JBool _ | JNum _ | JStr _ => JUndefined
  end.

(** [v?.[0]]. *)
Definition get_opt_index0 (v : JsVal) : JsVal :=
  match v with
  | JUndefined | JNull => JUndefined
  | JArr elems _ => match elems with e :: _ => e | [] => JUndefined end
  | JStr s => match s with c :: _ => JStr [c] | [] => JUndefined end
  | JObj ps => own (str "0") ps
  | JBool _ | JNum _ => JUndefined
  end.

(** [v.k = x] in strict mode (the backend is an ES module): creating a
    property on a primitive throws. *)
Definition set (v : JsVal) (k : jsstring) (x : JsVal) : result JsVal :=
  match v with
  | JObj ps => Ok (JObj (update k x ps))
  | JArr elems named => Ok (JArr elems (update k x named))
  | _ => Throw TypeError
  end.

(** [const { k = d } = v]: the default applies to [undefined] only. *)
Definition default (x d : JsVal) : JsVal :=
  match x with
  | JUndefined => d
  | _ => x
  end.

Definition destructure (v : JsVal) (k : jsstring) (d : JsVal) : result JsVal :=
  match get v k with
  | Ok x => Ok (default x d)
  | Throw e => Throw e
  end.

(** [ToString].  A plain object answers through [Object.prototype.toString]
    unless it has an own [toString] property, which is data here: then
    [OrdinaryToPrimitive] finds nothing callable that returns a primitive
    and throws.  An array answers through [join], where [undefined] and
    [null] elements count as empty strings. *)
Fixpoint to_string (v : JsVal) : result jsstring :=
  match v with
  | JUndefined => Ok (str "undefined")
  | JNull => Ok (str "null")
  | JBool b => Ok (if b then str "true" else str "false")
  | JNum x => Ok (Number.to_string x)
  | JStr s => Ok s
  | JObj ps =>
      if has (str "toString") ps then Throw TypeError
      else Ok (str "[object Object]")
  | JArr elems named =>
      if has (str "toString") named then Throw TypeError
      else if has (str "join") named then Ok (str "[object Array]")
      else
        (fix join_elems (l : list JsVal) : result jsstring :=
           match l with
           | [] => Ok []
           | e :: l' =>
               rbind (if nullish e then Ok [] else to_string e) (fun s =>
               match l' with
               | [] => Ok s
               | _ => rbind (join_elems l') (fun r => Ok (s ++ str "," ++ r))
               end)
           end) elems
  end.

(** The same [join] with any separator over a list of values:
    [Array.prototype.join]. *)
Fixpoint join (sep : jsstring) (l : list JsVal) : result jsstring :=
  match l with
  | [] => Ok []
  | e :: l' =>
      rbind (if nullish e then Ok [] else to_string e) (fun s =>
      match l' with
      | [] => Ok s
      | _ => rbind (join sep l') (fun r => Ok (s ++ sep ++ r))
      end)
  end.

(** [SameValueZero] against a string, as [Array.prototype.includes] uses
    it on an array of strings. *)
Definition includes (allowed : list jsstring) (v : JsVal) : bool :=
  match v with
  | JStr s => existsb (JSString.eqb s) allowed
  | _ => false
  end.

Definition isArray (v : JsVal) : bool :=
  match v with JArr _ _ => true | _ => false end.

End Js.

(* ===================================================================== *)
(** ** JSON

    [JSON.parse] on a string, and the value a client reads back from the
    text [JSON.stringify] writes (what [res.json] sends). *)
(* ===================================================================== *)

Module JSON.

Local Open Scope N_scope.

Definition is_ws (c : code_unit) : bool :=
  (c =? 32) || (c =? 9) || (c =? 10) || (c =? 13).

Fixpoint skip_ws (s : jsstring) : jsstring :=
  match s with
  | c :: s' => if is_ws c then skip_ws s' else s
  | [] => []
  end.

Definition is_digit (c : code_unit) : bool := (48 <=? c) && (c <=? 57).

Definition hex_value (c : code_unit) : option N :=
  if is_digit c then Some (c - 48)
  else if (97 <=? c) && (c <=? 102) then Some (c - 87)
  else if (65 <=? c) && (c <=? 70) then Some (c - 55)
  else None.

Definition hex4 (a b c d : code_unit) : option code_unit :=
  match hex_value a, hex_value b, hex_value c, hex_value d with
  | Some x, Some y, Some z, Some w => Some (((x * 16 + y) * 16 + z) * 16 + w)
  | _, _, _, _ => None
  end.

(** A maximal run of decimal digits: the integer read so far, how many
    digits were read, and the rest. *)
Fixpoint digits (s : jsstring) (acc : Z) (n : Z) : Z * Z * jsstring :=
  match s with
  | c :: s' =>
      if is_digit c then digits s' (acc * 10 + Z.of_N (c - 48))%Z (n + 1)%Z
      else (acc, n, s)
  | [] => (acc, n, [])
  end.

(** Number token: an optional minus sign; [0] or a digit [1-9] followed by
    digits; optionally a point and one digit or more; optionally [e] or
    [E], an optional sign and one digit or more. *)
Definition parse_sign (s : jsstring) : bool * jsstring :=
  match s with
  | c :: s' => if c =? 45 then (true, s') else (false, s)
  | [] => (false, s)
  end.

Definition parse_int (s : jsstring) : option (Z * jsstring) :=
  match s with
  | c :: s' =>
      if c =? 48 then Some (0%Z, s')
      else if is_digit c then let '(m, _, r) := digits s 0 0 in Some (m, r)
      else None
  | [] => None
  end.

(** The fraction continues the integer [m] read so far and counts its
    digits. *)
Definition parse_frac (m : Z) (s : jsstring) : option (Z * Z * jsstring) :=
  match s with
  | c :: s' =>
      if c =? 46 then
        let '(m', nf, r) := digits s' m 0 in
        if (nf =? 0)%Z then None else Some (m', nf, r)
      else Some (m, 0%Z, s)
  | [] => Some (m, 0%Z, s)
  end.

Definition parse_exp (s : jsstring) : option (Z * jsstring) :=
  match s with
  | c :: s' =>
      if (c =? 101) || (c =? 69) then
        let '(eneg, s'') :=
          match s' with
          | d :: t =>
              if d =? 45 then (true, t)
              else if d =? 43 then (false, t) else (false, s')
          | [] => (false, s')
          end in
        let '(ev, ne, r) := digits s'' 0 0 in
        if (ne =? 0)%Z then None
        else Some ((if eneg then - ev else ev)%Z, r)
      else Some (0%Z, s)
  | [] => Some (0%Z, s)
  end.

Definition parse_number (s : jsstring) : option (number * jsstring) :=
  let '(neg, s1) := parse_sign s in
  match parse_int s1 with
  | None => None
  | Some (m, s2) =>
      match parse_frac m s2 with
      | None => None
      | Some (m', nf, s3) =>
          match parse_exp s3 with
          | None => None
          | Some (ev, s4) => Some (of_decimal neg m' (ev - nf), s4)
          end
      end
  end.

(** The characters of a string token after its opening quote, up to and
    including the closing quote. *)
Fixpoint parse_chars (s : jsstring) (acc : jsstring) : option (jsstring * jsstring) :=
  match s with
  | [] => None
  | c :: s' =>
      if c =? 34 then Some (rev acc, s')
      else if c =? 92 then
        match s' with
        | [] => None
        | e :: r =>
            if e =? 34 then parse_chars r (34 :: acc)
            else if e =? 92 then parse_chars r (92 :: acc)
            else if e =? 47 then parse_chars r (47 :: acc)
            else if e =? 98 then parse_chars r (8 :: acc)
            else if e =? 102 then parse_chars r (12 :: acc)
            else if e =? 110 then parse_chars r (10 :: acc)
            else if e =? 114 then parse_chars r (13 :: acc)
            else if e =? 116 then parse_chars r (9 :: acc)
            else if e =? 117 then
              match r with
              | h1 :: h2 :: h3 :: h4 :: r' =>
                  match hex4 h1 h2 h3 h4 with
                  | Some u => parse_chars r' (u :: acc)
                  | None => None
                  end
              | _ => None
              end
            else None
        end
      else if c <? 32 then None
      else parse_chars s' (c :: acc)
  end.

Fixpoint strip_prefix (p s : jsstring) : option jsstring :=
  match p, s with
  | [], _ => Some s
  | a :: p', b :: s' => if a =? b then strip_prefix p' s' else None
  | _ :: _, [] => None
  end.

(** One value, its elements and its members.  Every call spends one unit
    of [fuel]; a value of [n] code units needs at most [2 * n + 2]. *)
Fixpoint parse_value (fuel : nat) (s : jsstring) {struct fuel}
  : option (JsVal * jsstring) :=
  match fuel with
  | O => None
  | S f =>
      match skip_ws s with
      | [] => None
      | c :: r =>
          if c =? 123 then
            match skip_ws r with
            | d :: r' => if d =? 125 then Some (JObj [], r')
                         else parse_members f r []
            | [] => None
            end
          else if c =? 91 then
            match skip_ws r with
            | d :: r' => if d =? 93 then Some (JArr [] [], r')
                         else parse_elements f r []
            | [] => None
            end
          else if c =? 34 then
            match parse_chars r [] with
            | Some (k, r') => Some (JStr k, r')
            | None => None
            end
          else if c =? 116 then
            option_map (pair (JBool true)) (strip_prefix (str "rue") r)
          else if c =? 102 then
            option_map (pair (JBool false)) (strip_prefix (str "alse") r)
          else if c =? 110 then
            option_map (pair JNull) (strip_prefix (str "ull") r)
          else
            match parse_number (c :: r) with
            | Some (x, r') => Some (JNum x, r')
            | None => None
            end
      end
  end
with parse_elements (fuel : nat) (s : jsstring) (acc : list JsVal) {struct fuel}
  : option (JsVal * jsstring) :=
  match fuel with
  | O => None
  | S f =>
      match parse_value f s with
      | Some (v, r) =>
          match skip_ws r with
          | d :: r' =>
              if d =? 44 then parse_elements f r' (v :: acc)
              else if d =? 93 then Some (JArr (rev (v :: acc)) [], r')
              else None
          | [] => None
          end
      | None => None
      end
  end
with parse_members (fuel : nat) (s : jsstring) (acc : props_t) {struct fuel}
  : option (JsVal * jsstring) :=
  match fuel with
  | O => None
  | S f =>
      match skip_ws s with
      | q :: r =>
          if q =? 34 then
            match parse_chars r [] with
            | Some (k, r1) =>
                match skip_ws r1 with
                | colon :: r2 =>
                    if colon =? 58 then
                      match parse_value f r2 with
                      | Some (v, r3) =>
                          (* a repeated key keeps its place and takes the
                             later value *)
                          let acc' := Js.update k v acc in
                          match skip_ws r3 with
                          | d :: r4 =>
                              if d =? 44 then parse_members f r4 acc'
                              else if d =? 125 then Some (JObj acc', r4)
                              else None
                          | [] => None
                          end
                      | None => None
                      end
                    else None
                | [] => None
                end
            | None => None
            end
          else None
      | [] => None
      end
  end.

(** [JSON.parse(text)]: one value, white space around it, nothing else. *)
Definition parse (text : jsstring) : result JsVal :=
  match parse_value (2 * List.length text + 2) text with
  | Some (v, rest) =>
      match skip_ws rest with
      | [] => Ok v
      | _ => Throw SyntaxError
      end
  | None => Throw SyntaxError
  end.

(** The value denoted by the text [JSON.stringify(v)]: members whose value
    is [undefined] are left out, [undefined] elements and non-finite
    numbers become [null], [-0] is written [0], and the named properties of
    an array are not written.  (No value here has a callable [toJSON].) *)
Fixpoint serialize (v : JsVal) : JsVal :=
  match v with
  | JUndefined => JUndefined
  | JNull => JNull
  | JBool b => JBool b
  | JNum x =>
      match x with
      | S754_zero _ => JNum (S754_zero false)
      | S754_finite _ _ _ => JNum x
      | S754_infinity _ | S754_nan => JNull
      end
  | JStr s => JStr s
  | JArr elems _ =>
      JArr (map (fun e => match e with
                          | JUndefined => JNull
                          | _ => serialize e
                          end) elems) []
  | JObj ps =>
      JObj ((fix members (l : props_t) : props_t :=
               match l with
               | [] => []
               | (k, x) :: l' =>
                   match x with
                   | JUndefined => members l'
                   | _ => (k, serialize x) :: members l'
                   end
               end) ps)
  end.

End JSON.

(** Source text with every apostrophe read as a double quote, to write
    JSON texts: [dq "{'a':1}"] is the text [{"a":1}]. *)
Definition dq (s : string) : jsstring :=
  map (fun c => if (c =? 39)%N then 34%N else c) (str s).

(* ===================================================================== *)
(** ** Handlers: effects

    A handler may call one upstream service and may throw.  The calls made
    are logged, so that "no upstream call" is a statement about the log;
    a throw keeps the log. *)
(* ===================================================================== *)

Inductive UpstreamCall : Type :=
| AxiosGet (url : jsstring) (params : props_t)
| ChatCompletionsCreate (model : jsstring) (temperature : number)
                        (messages : list (jsstring * jsstring)).

Record Response : Type := mkResponse { status : nat; body : JsVal }.

Definition M (A : Type) : Type :=
  list UpstreamCall -> result A * list UpstreamCall.

Definition ret {A} (a : A) : M A := fun log => (Ok a, log).

Definition bind {A B} (m : M A) (k : A -> M B) : M B :=
  fun log =>
    match m log with
    | (Ok a, log') => k a log'
    | (Throw e, log') => (Throw e, log')
    end.

Definition lift {A} (r : result A) : M A := fun log => (r, log).

Declare Scope handler_scope.
Delimit Scope handler_scope with handler.
Notation "x <- m ;; k" := (bind m (fun x => k))
  (at level 61, m at next level, right associativity) : handler_scope.

(** [res.json(v)] (status 200 unless set) and [res.status(n).json(v)]. *)
Definition res_json (v : JsVal) : Response := mkResponse 200 (JSON.serialize v).
Definition res_status_json (n : nat) (v : JsVal) : Response :=
  mkResponse n (JSON.serialize v).

Definition error_body (msg : string) : JsVal := JObj [(str "error", JStr (str msg))].

(** [try { m } catch (e) { ...; res.status(500).json({ error: msg }) }]. *)
Definition try_catch (m : M Response) (msg : string)
  : Response * list UpstreamCall :=
  match m [] with
  | (Ok r, log) => (r, log)
  | (Throw _, log) => (res_status_json 500 (error_body msg), log)
  end.

(* ===================================================================== *)
(** ** Configuration (module level of [server.js]) *)
(* ===================================================================== *)

(** The entries of [process.env] the backend reads; an unset variable is
    [undefined]. *)
Record Env : Type := mkEnv {
  env_NEWS_API_KEY : option jsstring;
  env_AI_PROVIDER : option jsstring;
  env_OPENAI_API_KEY : option jsstring
}.

Definition env_value (o : option jsstring) : JsVal :=
  match o with
  | Some s => JStr s
  | None => JUndefined
  end.

Definition NEWS_API_KEY (env : Env) : JsVal := env_value (env_NEWS_API_KEY env).

(** [(process.env.AI_PROVIDER || "openai").toLowerCase()]. *)
Definition AI_PROVIDER (env : Env) : jsstring :=
  match env_AI_PROVIDER env with
  | Some (c :: s) => toLowerCase (c :: s)
  | _ => toLowerCase (str "openai")
  end.

(** [openaiClient]: [None] is [null], [Some key] the client built with
    that API key. *)
Definition openaiClient (env : Env) : option jsstring :=
  if JSString.eqb (AI_PROVIDER env) (str "openai")
     && Js.truthy (env_value (env_OPENAI_API_KEY env))
  then env_OPENAI_API_KEY env
  else None.

(* ===================================================================== *)
(** ** [normalizeArticle] *)
(* ===================================================================== *)

Local Open Scope result_scope.

Definition normalizeArticle (a : JsVal) : result JsVal :=
  let? title := Js.get a (str "title") in
  let? source := Js.get a (str "source") in
  let? author := Js.get a (str "author") in
  let? description := Js.get a (str "description") in
  let? content := Js.get a (str "content") in
  let? url := Js.get a (str "url") in
  let? urlToImage := Js.get a (str "urlToImage") in
  let? publishedAt := Js.get a (str "publishedAt") in
  Ok (JObj
    [ (str "title", Js.or title (JStr []));
      (str "source", Js.or (Js.get_opt source (str "name")) (JStr (str "Unknown")));
      (str "author", Js.or author JNull);
      (str "description", Js.or description (JStr []));
      (str "content", Js.or content (JStr []));
      (str "url", url);
      (str "urlToImage", Js.or urlToImage JNull);
      (str "publishedAt", Js.or publishedAt (JStr [])) ]).

(** [xs.map(f)] for a callback that may throw; only an array has [map]. *)
Fixpoint map_result {A B} (f : A -> result B) (l : list A) : result (list B) :=
  match l with
  | [] => Ok []
  | x :: l' =>
      let? y := f x in
      let? ys := map_result f l' in
      Ok (y :: ys)
  end.

Definition array_map (f : JsVal -> result JsVal) (v : JsVal) : result JsVal :=
  match v with
  | JArr elems _ => let? ys := map_result f elems in Ok (JArr ys [])
  | _ => Throw TypeError
  end.

(** [v.toLowerCase()]: only a string has the method. *)
Definition call_toLowerCase (v : JsVal) : result JsVal :=
  match v with
  | JStr s => Ok (JStr (toLowerCase s))
  | _ => Throw TypeError
  end.

(** [v.trim()]. *)
Definition call_trim (v : JsVal) : result JsVal :=
  match v with
  | JStr s => Ok (JStr (trim s))
  | _ => Throw TypeError
  end.

(* ===================================================================== *)
(** ** [GET /api/news] *)
(* ===================================================================== *)

Definition top_headlines_url : jsstring := str "https://newsapi.org/v2/top-headlines".
Definition everything_url : jsstring := str "https://newsapi.org/v2/everything".

Definition news_key_missing : string :=
  "NEWS_API_KEY missing. Add it to backend .env (NEWS_API_KEY=...).".

(** [if (c) params.k = v]. *)
Definition set_if (c : JsVal) (k : jsstring) (v : JsVal) (params : props_t) : props_t :=
  if Js.truthy c then Js.update k v params else params.

(** Lines 65-83: the upstream endpoint and its parameters. *)
Definition news_request (apiKey q country category from to pageSize page sortBy : JsVal)
  : result (jsstring * props_t) :=
  let params := [(str "apiKey", apiKey); (str "pageSize", pageSize); (str "page", page)] in
  if Js.truthy (Js.or country category) then
    let params := set_if country (str "country") country params in
    let? params :=
      if Js.truthy category then
        let? lowered := call_toLowerCase category in
        Ok (Js.update (str "category") lowered params)
      else Ok params in
    let params := set_if q (str "q") q params in
    Ok (top_headlines_url, params)
  else
    let params := set_if q (str "q") q params in
    let params := set_if from (str "from") from params in
    let params := set_if to (str "to") to params in
    let params := Js.update (str "sortBy") sortBy params in
    let params :=
      if negb (Js.truthy (Js.own (str "q") params))
      then Js.update (str "q") (JStr (str "news")) params
      else params in
    Ok (everything_url, params).

(** Lines 86-88: the articles of [resp.data], normalised, and the count. *)
Definition news_response (data : JsVal) : result Response :=
  let? listed := Js.get data (str "articles") in
  let? articles := array_map normalizeArticle (Js.or listed (JArr [] [])) in
  let? total := Js.get data (str "totalResults") in
  Ok (res_json (JObj [ (str "totalResults", Js.or total (JNum (S754_zero false)));
                       (str "articles", articles) ])).

Section Handlers.

(** The two upstream services: what [axios.get(url, { params })] resolves
    to, as the decoded body [resp.data], and what
    [openaiClient.chat.completions.create(...)] resolves to; a rejected
    promise is a throw. *)
Variable upstream : UpstreamCall -> result JsVal.

Definition call (c : UpstreamCall) : M JsVal :=
  fun log => (upstream c, log ++ [c]).

Local Open Scope handler_scope.

Definition news_body (env : Env) (query : JsVal) : M Response :=
  q <- lift (Js.destructure query (str "q") (JStr [])) ;;
  country <- lift (Js.destructure query (str "country") (JStr [])) ;;
  category <- lift (Js.destructure query (str "category") (JStr [])) ;;
  from <- lift (Js.destructure query (str "from") (JStr [])) ;;
  to <- lift (Js.destructure query (str "to") (JStr [])) ;;
  pageSize <- lift (Js.destructure query (str "pageSize") (JStr (str "10"))) ;;
  page <- lift (Js.destructure query (str "page") (JStr (str "1"))) ;;
  sortBy <- lift (Js.destructure query (str "sortBy") (JStr (str "publishedAt"))) ;;
  if negb (Js.truthy (NEWS_API_KEY env)) then
    ret (res_status_json 500 (error_body news_key_missing))
  else
    request <- lift (news_request (NEWS_API_KEY env) q country category
                                  from to pageSize page sortBy) ;;
    data <- call (AxiosGet (fst request) (snd request)) ;;
    lift (news_response data).

(** The handler of [GET /api/news] on [req.query]: the response sent and
    the upstream calls made. *)
Definition api_news (env : Env) (query : JsVal) : Response * list UpstreamCall :=
  try_catch (news_body env query) "Failed to fetch news".

End Handlers.

(* ===================================================================== *)
(** ** [POST /api/ai/enrich] *)
(* ===================================================================== *)

Definition provider_missing : string :=
  "AI provider not configured. Set AI_PROVIDER=openai and OPENAI_API_KEY in .env".

Definition nl : jsstring := [10%N].

(** The template literal of lines 113-124, trimmed. *)
Definition prompt_of (text : jsstring) : jsstring :=
  trim (nl
    ++ str "You are an assistant that analyzes news articles." ++ nl
    ++ str "Given the article text below, return a JSON object with:" ++ nl
    ++ dq "- 'summary100': a concise summary under 100 words." ++ nl
    ++ dq "- 'sentiment': one of 'Positive', 'Negative', or 'Neutral'." ++ nl
    ++ dq "- 'takeaways': exactly 3 short bullet points (strings)." ++ nl
    ++ nl
    ++ str "Article:" ++ nl
    ++ text ++ nl
    ++ nl
    ++ str "Respond ONLY with valid JSON (no backticks, no extra text)." ++ nl).

(** [[title, description, content].filter(Boolean).join("\n\n")]. *)
Definition text_blob (title description content : JsVal) : result jsstring :=
  Js.join (nl ++ nl) (filter Js.truthy [title; description; content]).

Definition chat_request (text : jsstring) : UpstreamCall :=
  ChatCompletionsCreate (str "gpt-4o-mini") (of_decimal false 3 (-1))
    [ (str "system", str "You are a helpful news assistant.");
      (str "user", prompt_of text) ].

(** [completion.choices?.[0]?.message?.content]. *)
Definition completion_content (completion : JsVal) : result JsVal :=
  let? choices := Js.get completion (str "choices") in
  Ok (Js.get_opt (Js.get_opt (Js.get_opt_index0 choices) (str "message"))
                 (str "content")).

(** [completion.choices?.[0]?.message?.content?.trim() || "{}"]. *)
Definition raw_of (completion : JsVal) : result JsVal :=
  let? content := completion_content completion in
  let? trimmed := if Js.nullish content then Ok JUndefined else call_trim content in
  Ok (Js.or trimmed (JStr (str "{}"))).

(** The object of the inner [catch] (lines 142-151). *)
Definition parse_fallback : JsVal :=
  JObj
    [ (str "summary100",
       JStr (str "Summary not available due to parsing error. Please try again."));
      (str "sentiment", JStr (str "Neutral"));
      (str "takeaways",
       JArr [ JStr (str "Summary failed to parse.");
              JStr (str "Try again or open the article.");
              JStr (str "Check network/API limits.") ] []) ].

(** [try { parsed = JSON.parse(raw) } catch { parsed = ... }]. *)
Definition parse_or_fallback (raw : JsVal) : JsVal :=
  match (let? text := Js.to_string raw in JSON.parse text) with
  | Ok v => v
  | Throw _ => parse_fallback
  end.

Definition allowed : list jsstring := [str "Positive"; str "Negative"; str "Neutral"].

(** [Array(3).fill("")]. *)
Definition three_empty : list JsVal := [JStr []; JStr []; JStr []].

(** [t.slice(0, 3).concat(Array(3).fill("")).slice(0, 3)] on a truthy or
    defaulted [t]: on an array the array methods; on a string the string
    methods of the same names, where [concat] appends the string of its
    argument; nothing else has a [slice] method. *)
Definition repair_takeaways (t : JsVal) : result JsVal :=
  match t with
  | JArr elems _ => Ok (JArr (slice (slice elems 0 3 ++ three_empty) 0 3) [])
  | JStr s =>
      let? filler := Js.to_string (JArr three_empty []) in
      Ok (JStr (slice (slice s 0 3 ++ filler) 0 3))
  | _ => Throw TypeError
  end.

Definition takeaways_ok (t : JsVal) : bool :=
  match t with
  | JArr elems _ => Nat.eqb (List.length elems) 3
  | _ => false
  end.

(** Lines 154-163, "ensure shape". *)
Definition ensure_shape (parsed : JsVal) : result JsVal :=
  let? summary := Js.get parsed (str "summary100") in
  let? text := Js.to_string (Js.or summary (JStr [])) in
  let? parsed := Js.set parsed (str "summary100") (JStr (slice text 0 900)) in
  let? sentiment := Js.get parsed (str "sentiment") in
  let? parsed :=
    if negb (Js.includes allowed sentiment)
    then Js.set parsed (str "sentiment") (JStr (str "Neutral"))
    else Ok parsed in
  let? takeaways := Js.get parsed (str "takeaways") in
  if negb (takeaways_ok takeaways) then
    let? repaired := repair_takeaways (Js.or takeaways (JArr [] [])) in
    Js.set parsed (str "takeaways") repaired
  else Ok parsed.

(** Lines 135-165: from the completion to the response. *)
Definition enrich_response (completion : JsVal) : result Response :=
  let? raw := raw_of completion in
  let? parsed := ensure_shape (parse_or_fallback raw) in
  Ok (res_json parsed).

Section Enrich.

Variable upstream : UpstreamCall -> result JsVal.

Local Open Scope handler_scope.

Definition enrich_body (env : Env) (req_body : JsVal) : M Response :=
  title <- lift (Js.destructure req_body (str "title") (JStr [])) ;;
  description <- lift (Js.destructure req_body (str "description") (JStr [])) ;;
  content <- lift (Js.destructure req_body (str "content") (JStr [])) ;;
  url <- lift (Js.destructure req_body (str "url") (JStr [])) ;;
  if negb (JSString.eqb (AI_PROVIDER env) (str "openai"))
     || match openaiClient env with None => true | Some _ => false end
  then ret (res_status_json 500 (error_body provider_missing))
  else
    text <- lift (text_blob title description content) ;;
    completion <- call upstream (chat_request text) ;;
    lift (enrich_response completion).

(** The handler of [POST /api/ai/enrich] on [req.body]. *)
Definition api_ai_enrich (env : Env) (req_body : JsVal)
  : Response * list UpstreamCall :=
  try_catch (enrich_body env req_body) "Failed to enrich article".

End Enrich.

(* ===================================================================== *)
(** ** Vocabulary of the properties

    Predicates and functions the statements below use: what "configured"
    means, the table of defaults of an article, what a response carries,
    requests whose parameters are strings, the parameters each search mode
    forwards as the specification words them, and sample inputs. *)
(* ===================================================================== *)

(** The responses of the two [catch] blocks. *)
Definition news_failed : Response :=
  mkResponse 500 (error_body "Failed to fetch news").
Definition enrich_failed : Response :=
  mkResponse 500 (error_body "Failed to enrich article").

(** The enrichment provider is configured: [AI_PROVIDER] names [openai]
    (any case; unset counts) and [OPENAI_API_KEY] is a non-empty string. *)
Definition enrich_configured (env : Env) : Prop :=
  AI_PROVIDER env = str "openai" /\
  exists key, env_OPENAI_API_KEY env = Some key /\ key <> [].

(** The news provider is configured: [NEWS_API_KEY] is a non-empty
    string. *)
Definition news_configured (env : Env) : Prop :=
  exists key, env_NEWS_API_KEY env = Some key /\ key <> [].

(** The keys of an article. *)
Definition k_title : jsstring := str "title".
Definition k_source : jsstring := str "source".
Definition k_author : jsstring := str "author".
Definition k_description : jsstring := str "description".
Definition k_content : jsstring := str "content".
Definition k_url : jsstring := str "url".
Definition k_urlToImage : jsstring := str "urlToImage".
Definition k_publishedAt : jsstring := str "publishedAt".

(** The properties [normalizeArticle] gives the object it returns. *)
Definition normalized_props (ps : props_t) : props_t :=
  [ (k_title, Js.or (Js.own k_title ps) (JStr []));
    (k_source, Js.or (Js.get_opt (Js.own k_source ps) (str "name"))
                     (JStr (str "Unknown")));
    (k_author, Js.or (Js.own k_author ps) JNull);
    (k_description, Js.or (Js.own k_description ps) (JStr []));
    (k_content, Js.or (Js.own k_content ps) (JStr []));
    (k_url, Js.own k_url ps);
    (k_urlToImage, Js.or (Js.own k_urlToImage ps) JNull);
    (k_publishedAt, Js.or (Js.own k_publishedAt ps) (JStr [])) ].

(** The fields that have a default, with the value an absent field gets. *)
Definition field_defaults : list (jsstring * JsVal) :=
  [ (k_title, JStr []);
    (k_source, JStr (str "Unknown"));
    (k_author, JNull);
    (k_description, JStr []);
    (k_content, JStr []);
    (k_urlToImage, JNull);
    (k_publishedAt, JStr []) ].

Definition defaulted_fields : list jsstring := map fst field_defaults.

(** [JSON.stringify] writes a member unless its value is [undefined]. *)
Definition written (kv : jsstring * JsVal) : bool :=
  match snd kv with
  | JUndefined => false
  | _ => true
  end.

Definition serialize_member (kv : jsstring * JsVal) : jsstring * JsVal :=
  (fst kv, JSON.serialize (snd kv)).

Definition serialize_element (e : JsVal) : JsVal :=
  match e with
  | JUndefined => JNull
  | _ => JSON.serialize e
  end.

(** The JSON object sent for the record [ps]. *)
Definition sent_article (ps : props_t) : props_t :=
  map serialize_member (filter written (normalized_props ps)).

(** What the news endpoint promises about the article sent for a record:
    the seven fields with a default are always there, holding the default
    when the record lacks the field; [url] is there exactly when the record
    carries one. *)
Definition article_for (record art : props_t) : Prop :=
  (forall k, In k defaulted_fields -> Js.has k art = true)
  /\ (Js.has k_url art = written (k_url, Js.own k_url record))
  /\ (forall k d, In (k, d) field_defaults ->
        Js.lookup k record = None -> Js.lookup k art = Some d).

(** The [articles] member of a response body. *)
Definition response_articles (r : Response) : JsVal :=
  Js.get_opt (body r) (str "articles").

(** Every value of the object is a string, as in a query string with no
    repeated or bracketed key, or a body that follows the interface. *)
Definition string_valued (ps : props_t) : Prop :=
  Forall (fun kv => exists s, snd kv = JStr s) ps.

(** The parameter [k] after destructuring with default [d]. *)
Definition param (ps : props_t) (k d : jsstring) : jsstring :=
  match Js.lookup k ps with
  | Some (JStr s) => s
  | _ => d
  end.

(** A string is non-empty (truthy). *)
Definition nonempty (s : jsstring) : bool :=
  match s with
  | [] => false
  | _ :: _ => true
  end.

(** A parameter that is forwarded only when it is not empty. *)
Definition forwarded_if_nonempty (s : jsstring) : option JsVal :=
  if nonempty s then Some (JStr s) else None.

(** Headlines mode, as the specification words it: [country], the
    lowercased [category] and [q], each when non-empty, with [pageSize],
    [page] and the API key. *)
Definition headlines_forwarded (key q country category pageSize page : jsstring)
    (k : jsstring) : option JsVal :=
  if JSString.eqb k (str "apiKey") then Some (JStr key)
  else if JSString.eqb k (str "pageSize") then Some (JStr pageSize)
  else if JSString.eqb k (str "page") then Some (JStr page)
  else if JSString.eqb k (str "country") then forwarded_if_nonempty country
  else if JSString.eqb k (str "category") then
    forwarded_if_nonempty (toLowerCase category)
  else if JSString.eqb k (str "q") then forwarded_if_nonempty q
  else None.

(** Search mode: [q] (the term ["news"] in place of an empty one), [from]
    and [to] when non-empty, [sortBy], [pageSize], [page] and the API key. *)
Definition search_forwarded (key q from to sortBy pageSize page : jsstring)
    (k : jsstring) : option JsVal :=
  if JSString.eqb k (str "apiKey") then Some (JStr key)
  else if JSString.eqb k (str "pageSize") then Some (JStr pageSize)
  else if JSString.eqb k (str "page") then Some (JStr page)
  else if JSString.eqb k (str "q") then
    Some (JStr (if nonempty q then q else str "news"))
  else if JSString.eqb k (str "from") then forwarded_if_nonempty from
  else if JSString.eqb k (str "to") then forwarded_if_nonempty to
  else if JSString.eqb k (str "sortBy") then Some (JStr sortBy)
  else None.

(** [country] or [category] is non-empty. *)
Definition headlines_mode (country category : jsstring) : bool :=
  nonempty country || nonempty category.

(** A stub upstream that answers every call with the same payload. *)
Definition always (data : JsVal) : UpstreamCall -> result JsVal :=
  fun _ => Ok data.

(** Sample inputs: an environment with a news key, and the payload the
    news provider answers with for a list of records. *)
Definition news_env : Env := mkEnv (Some (str "KEY")) None None.

Definition payload (records : list props_t) : JsVal :=
  JObj [ (str "status", JStr (str "ok"));
         (str "totalResults",
          JNum (of_decimal false (Z.of_nat (List.length records)) 0));
         (str "articles", JArr (map JObj records) []) ].

(** The text blob as the specification words it: the non-empty fields
    among title, description and content, in that order, separated by
    blank lines. *)
Definition article_text (title description content : jsstring) : jsstring :=
  JSString.join (nl ++ nl) (filter nonempty [title; description; content]).

(** Sample inputs: an environment with the provider configured
    ([AI_PROVIDER] unset, so ["openai"]), and a request body. *)
Definition enrich_env : Env := mkEnv None None (Some (str "sk-test")).

Definition sample_body : props_t :=
  [ (str "title", JStr (str "Title")); (str "description", JStr []);
    (str "content", JStr (str "Body")); (str "url", JStr (str "http://x")) ].

(** The completion an upstream answers with when the model's message is
    [text]. *)
Definition completion_of (text : jsstring) : JsVal :=
  JObj [ (str "id", JStr (str "chatcmpl-1"));
         (str "choices",
          JArr [ JObj [ (str "index", JNum (S754_zero false));
                        (str "message",
                         JObj [ (str "role", JStr (str "assistant"));
                                (str "content", JStr text) ]) ] ] []) ].

(** The result the handler sends when the text it parses is [{}]. *)
Definition empty_result : JsVal :=
  JObj [ (str "summary100", JStr []);
         (str "sentiment", JStr (str "Neutral"));
         (str "takeaways", JArr [JStr []; JStr []; JStr []] []) ].

(** The message text of a completion is missing or blank: there is no
    first choice, or no message, or no content, or the content is a string
    of white space only. *)
Definition blank_content (content : JsVal) : Prop :=
  Js.nullish content = true
  \/ exists t, content = JStr t /\ Forall (fun u => is_white_space u = true) t.

Definition is_string (v : JsVal) : bool :=
  match v with
  | JStr _ => true
  | _ => false
  end.

(** [EnrichmentResult]: an object whose [summary100] is a string of at
    most 900 code units, whose [sentiment] is one of the three labels and
    whose [takeaways] is an array of exactly three strings. *)
Definition EnrichmentResult (v : JsVal) : bool :=
  match v with
  | JObj ps =>
      match Js.own (str "summary100") ps with
      | JStr s => Nat.leb (List.length s) 900
      | _ => false
      end
      && Js.includes allowed (Js.own (str "sentiment") ps)
      && match Js.own (str "takeaways") ps with
         | JArr elems _ => Nat.eqb (List.length elems) 3 && forallb is_string elems
         | _ => false
         end
  | _ => false
  end.

(** The response of the enrich endpoint when the model's message is
    [text]. *)
Definition enrich_on (text : jsstring) : Response :=
  fst (api_ai_enrich (always (completion_of text)) enrich_env (JObj sample_body)).

(* ===================================================================== *)
(** ** Vocabulary of the further properties

    How a run of a handler can end, what "ensure shape" leaves to do, the
    provider names that select [openai], and the fixed text of the prompt. *)
(* ===================================================================== *)

(** How a run of the news handler can end: the outcome of every step it
    takes before answering. *)
Inductive news_outcome (up : UpstreamCall -> result JsVal) (env : Env)
  : Response * list UpstreamCall -> Prop :=
| news_threw_early : news_outcome up env (news_failed, [])
| news_no_key :
    Js.truthy (NEWS_API_KEY env) = false ->
    news_outcome up env (mkResponse 500 (error_body news_key_missing), [])
| news_upstream_failed c e :
    Js.truthy (NEWS_API_KEY env) = true -> up c = Throw e ->
    news_outcome up env (news_failed, [c])
| news_bad_payload c data e :
    Js.truthy (NEWS_API_KEY env) = true -> up c = Ok data ->
    news_response data = Throw e ->
    news_outcome up env (news_failed, [c])
| news_answered c data r :
    Js.truthy (NEWS_API_KEY env) = true -> up c = Ok data ->
    news_response data = Ok r ->
    news_outcome up env (r, [c]).

(** How a run of the enrich handler can end. *)
Inductive enrich_outcome (up : UpstreamCall -> result JsVal) (env : Env)
  : Response * list UpstreamCall -> Prop :=
| enrich_threw_early : enrich_outcome up env (enrich_failed, [])
| enrich_no_provider :
    ~ enrich_configured env ->
    enrich_outcome up env (mkResponse 500 (error_body provider_missing), [])
| enrich_upstream_failed c e :
    enrich_configured env -> up c = Throw e ->
    enrich_outcome up env (enrich_failed, [c])
| enrich_bad_completion c completion e :
    enrich_configured env -> up c = Ok completion ->
    enrich_response completion = Throw e ->
    enrich_outcome up env (enrich_failed, [c])
| enrich_answered c completion r :
    enrich_configured env -> up c = Ok completion ->
    enrich_response completion = Ok r ->
    enrich_outcome up env (r, [c]).

(** The keys of an enrichment result. *)
Definition k_summary100 : jsstring := str "summary100".
Definition k_sentiment : jsstring := str "sentiment".
Definition k_takeaways : jsstring := str "takeaways".

(** What lines 154-163 do to the properties of [parsed]. *)
Definition shape_props (ps : props_t) : result props_t :=
  let? text := Js.to_string (Js.or (Js.own k_summary100 ps) (JStr [])) in
  let ps1 := Js.update k_summary100 (JStr (slice text 0 900)) ps in
  let ps2 := if negb (Js.includes allowed (Js.own k_sentiment ps1))
             then Js.update k_sentiment (JStr (str "Neutral")) ps1
             else ps1 in
  if negb (takeaways_ok (Js.own k_takeaways ps2)) then
    let? repaired :=
      repair_takeaways (Js.or (Js.own k_takeaways ps2) (JArr [] [])) in
    Ok (Js.update k_takeaways repaired ps2)
  else Ok ps2.

(** A result on which "ensure shape" has nothing left to do. *)
Definition settled (ps : props_t) : Prop :=
  (exists s, Js.lookup k_summary100 ps = Some (JStr s) /\ List.length s <= 900)
  /\ Js.includes allowed (Js.own k_sentiment ps) = true
  /\ ((exists l named, Js.lookup k_takeaways ps = Some (JArr l named)
                       /\ List.length l = 3)
      \/ (exists s, Js.lookup k_takeaways ps = Some (JStr s)
                    /\ List.length s = 3)).

(** The value of [AI_PROVIDER] selects the supported provider: unset or
    empty, or [openai] in any letter case. *)
Definition names_openai (provider : option jsstring) : bool :=
  match provider with
  | Some (c :: s) => JSString.eqb (toLowerCase (c :: s)) (str "openai")
  | _ => true
  end.

(** The fixed text before and after the article in the prompt. *)
Definition prompt_head : jsstring :=
  str "You are an assistant that analyzes news articles." ++ nl
  ++ str "Given the article text below, return a JSON object with:" ++ nl
  ++ dq "- 'summary100': a concise summary under 100 words." ++ nl
  ++ dq "- 'sentiment': one of 'Positive', 'Negative', or 'Neutral'." ++ nl
  ++ dq "- 'takeaways': exactly 3 short bullet points (strings)." ++ nl
  ++ nl
  ++ str "Article:" ++ nl.

Definition prompt_tail : jsstring :=
  nl ++ nl ++ str "Respond ONLY with valid JSON (no backticks, no extra text).".

(* ===================================================================== *)
(** ** The frontend ([App.js])

    The state and the two requests of the React component.  Between the
    two programs the transport is taken as it behaves on this data: the
    backend reads as [req.query] the string parameters [axios.get] was
    given, reads as [req.body] the JSON of the object [axios.post] was
    given, and [axios] throws on a status outside 200-299. *)
(* ===================================================================== *)

Module App.

Definition is_2xx (r : Response) : bool :=
  Nat.leb 200 (status r) && Nat.ltb (status r) 300.

(** [useState({ q: "", country: "", ..., pageSize: "9" })]. *)
Definition initial_filters : props_t :=
  [ (str "q", JStr []); (str "country", JStr []); (str "category", JStr []);
    (str "from", JStr []); (str "to", JStr []); (str "pageSize", JStr (str "9")) ].

(** [setFilters((f) => ({ ...f, [e.target.name]: e.target.value }))]. *)
Definition handleChange (filters : props_t) (name value : jsstring) : props_t :=
  Js.update name (JStr value) filters.

Definition handleReset (filters : props_t) : props_t := initial_filters.

(** The [name] attributes of the five controls wired to [handleChange]. *)
Definition input_names : list jsstring :=
  [str "category"; str "country"; str "from"; str "to"; str "q"].

Inductive ui_event : Type :=
| Change (name value : jsstring)
| Reset.

Definition handle (filters : props_t) (e : ui_event) : props_t :=
  match e with
  | Change name value => handleChange filters name value
  | Reset => handleReset filters
  end.

Definition from_controls (e : ui_event) : Prop :=
  match e with
  | Change name _ => In name input_names
  | Reset => True
  end.

Definition filters_after (events : list ui_event) : props_t :=
  fold_left handle events initial_filters.

(** [if (filters.k) params.k = filters.k], for the six keys in turn. *)
Definition copy_if_set (filters : props_t) (k : jsstring) (params : props_t)
  : props_t :=
  set_if (Js.own k filters) k (Js.own k filters) params.

Definition fetch_params (filters : props_t) : props_t :=
  copy_if_set filters (str "pageSize")
    (copy_if_set filters (str "to")
      (copy_if_set filters (str "from")
        (copy_if_set filters (str "category")
          (copy_if_set filters (str "country")
            (copy_if_set filters (str "q") []))))).

(** [fetchNews]: the value given to [setNews]. *)
Definition fetchNews (server : JsVal -> Response) (filters : props_t) : JsVal :=
  let r := server (JObj (fetch_params filters)) in
  if is_2xx r then
    match Js.get (body r) (str "articles") with
    | Ok listed => Js.or listed (JArr [] [])
    | Throw _ => JArr [] []
    end
  else JArr [] [].

(** [summarize]: the body posted, or [None] when it returns at once
    ([if (!article?.url) return]). *)
Definition summarize_request (article : JsVal) : option JsVal :=
  if negb (Js.truthy (Js.get_opt article (str "url"))) then None
  else Some (JObj [ (str "title", Js.get_opt article (str "title"));
                    (str "description", Js.get_opt article (str "description"));
                    (str "content", Js.get_opt article (str "content"));
                    (str "url", Js.get_opt article (str "url")) ]).

(** The object of the [catch] of [summarize]. *)
Definition summarize_fallback : JsVal :=
  JObj [ (str "summary100", JStr (str "Failed to generate summary."));
         (str "sentiment", JStr (str "Neutral"));
         (str "takeaways",
          JArr [JStr (str "Try again later."); JStr []; JStr []] []) ].

(** [summarize]: the value stored in [aiData] for the article, if any. *)
Definition summarize (server : JsVal -> Response) (article : JsVal)
  : option JsVal :=
  match summarize_request article with
  | None => None
  | Some posted =>
      let r := server (JSON.serialize posted) in
      Some (if is_2xx r then body r else summarize_fallback)
  end.

End App.

(** The parameter [k] as the frontend sends it: omitted when empty, so
    that the backend's default [d] applies. *)
Definition sent_param (filters : props_t) (k d : jsstring) : jsstring :=
  if nonempty (param filters k []) then param filters k [] else d.

(** A field of an upstream record is a string or absent. *)
Definition string_or_absent (ps : props_t) (k : jsstring) : Prop :=
  Js.lookup k ps = None \/ exists s, Js.lookup k ps = Some (JStr s).

(** The invariant of the [filters] state. *)
Definition filters_ok (f : props_t) : Prop :=
  string_valued f
  /\ map fst f = map fst App.initial_filters
  /\ Js.lookup (str "pageSize") f = Some (JStr (str "9")).

(** Sample inputs of the further properties. *)
Definition failing : UpstreamCall -> result JsVal := fun _ => Throw UpstreamFailure.

Definition full_env : Env :=
  mkEnv (Some (str "KEY")) (Some (str "OpenAI")) (Some (str "sk-test")).

Definition null_record_payload : JsVal :=
  JObj [ (str "articles", JArr [JObj [(k_title, JStr (str "T"))]; JNull] []) ].

Definition valid_text : jsstring :=
  dq "{'summary100':'Short.','sentiment':'Positive','takeaways':['a','b','c'],'lang':'en'}".

Definition valid_props : props_t :=
  [ (k_summary100, JStr (str "Short.")); (k_sentiment, JStr (str "Positive"));
    (k_takeaways, JArr [JStr (str "a"); JStr (str "b"); JStr (str "c")] []);
    (str "lang", JStr (str "en")) ].

Definition bbc_record : props_t :=
  [ (k_title, JStr (str "T"));
    (k_source, JObj [(str "id", JNull); (str "name", JStr (str "BBC"))]) ].

Definition sample_events : list App.ui_event :=
  [ App.Change (str "q") (str "ai"); App.Reset;
    App.Change (str "country") (str "us") ].

Definition linked_record : props_t :=
  [ (k_title, JStr (str "Title")); (k_content, JStr (str "Body"));
    (k_url, JStr (str "http://x")); (k_author, JNull) ].

(* ===================================================================== *)
(** ** Properties: the run-time model *)
(* ===================================================================== *)

Lemma eqb_eq (a b : jsstring) : JSString.eqb a b = true <-> a = b.
Proof.
  revert b; induction a as [|x a IH]; intros [|y b]; simpl; split;
    try congruence; try reflexivity.
  - intros H. apply andb_true_iff in H as [Hx Hab].
    apply N.eqb_eq in Hx. apply IH in Hab. congruence.
  - intros H. injection H as -> ->. rewrite N.eqb_refl. simpl. now apply IH.
Qed.

Lemma eqb_refl (a : jsstring) : JSString.eqb a a = true.
Proof. now apply eqb_eq. Qed.

Lemma eqb_sym (a b : jsstring) : JSString.eqb a b = JSString.eqb b a.
Proof.
  destruct (JSString.eqb a b) eqn:E, (JSString.eqb b a) eqn:E'; try reflexivity.
  - apply eqb_eq in E. subst. now rewrite eqb_refl in E'.
  - apply eqb_eq in E'. subst. now rewrite eqb_refl in E.
Qed.

Lemma lookup_update_same k x ps : Js.lookup k (Js.update k x ps) = Some x.
Proof.
  induction ps as [|[k' v] ps IH]; simpl.
  - now rewrite eqb_refl.
  - destruct (JSString.eqb k k') eqn:E; simpl; rewrite E; auto.
Qed.

Lemma lookup_update_other j k x ps :
  JSString.eqb j k = false -> Js.lookup j (Js.update k x ps) = Js.lookup j ps.
Proof.
  intros Hjk. induction ps as [|[k' v] ps IH]; simpl.
  - now rewrite Hjk.
  - destruct (JSString.eqb k k') eqn:E; simpl.
    + apply eqb_eq in E. subst k'. now rewrite Hjk.
    + now rewrite IH.
Qed.

Lemma lookup_remove_same k ps : Js.lookup k (Js.remove k ps) = None.
Proof.
  induction ps as [|[k' v] ps IH]; simpl; auto.
  destruct (JSString.eqb k k') eqn:E; simpl; rewrite ?E; auto.
Qed.

Lemma lookup_remove_other j k ps :
  JSString.eqb j k = false -> Js.lookup j (Js.remove k ps) = Js.lookup j ps.
Proof.
  intros Hjk. induction ps as [|[k' v] ps IH]; simpl; auto.
  destruct (JSString.eqb k k') eqn:E; simpl.
  - apply eqb_eq in E. subst k'. now rewrite Hjk.
  - now rewrite IH.
Qed.

Lemma own_update_same k x ps : Js.own k (Js.update k x ps) = x.
Proof. unfold Js.own. now rewrite lookup_update_same. Qed.

Lemma own_update_other j k x ps :
  JSString.eqb j k = false -> Js.own j (Js.update k x ps) = Js.own j ps.
Proof. intros H. unfold Js.own. now rewrite lookup_update_other. Qed.

Lemma own_remove_same k ps : Js.own k (Js.remove k ps) = JUndefined.
Proof. unfold Js.own. now rewrite lookup_remove_same. Qed.

Lemma own_remove_other j k ps :
  JSString.eqb j k = false -> Js.own j (Js.remove k ps) = Js.own j ps.
Proof. intros H. unfold Js.own. now rewrite lookup_remove_other. Qed.

(** A falsy value is a primitive: [v?.name] finds nothing on it. *)
Lemma get_opt_falsy v k : Js.truthy v = false -> Js.get_opt v k = JUndefined.
Proof. destruct v; simpl; congruence. Qed.

Lemma or_falsy v d : Js.truthy v = false -> Js.or v d = d.
Proof. unfold Js.or. now intros ->. Qed.

Lemma or_truthy v d : Js.truthy v = true -> Js.or v d = v.
Proof. unfold Js.or. now intros ->. Qed.

Lemma or_defined v d : d <> JUndefined -> Js.or v d <> JUndefined.
Proof.
  unfold Js.or. intros Hd. destruct (Js.truthy v) eqn:E; auto.
  intros ->. discriminate.
Qed.

(* ===================================================================== *)
(** ** Properties: the parser's fuel

    Every successful step of the parser consumes input, so the recursion
    depth is bounded by the length of the text and the fuel [JSON.parse]
    provides is never exhausted: a failure is a syntax error. *)
(* ===================================================================== *)

Lemma skip_ws_length s : List.length (JSON.skip_ws s) <= List.length s.
Proof.
  induction s as [|c s IH]; simpl; [lia|].
  destruct (JSON.is_ws c); simpl; lia.
Qed.

Lemma digits_length s : forall acc n a n' r,
  JSON.digits s acc n = (a, n', r) -> List.length r <= List.length s.
Proof.
  induction s as [|c s IH]; simpl; intros acc n a n' r H.
  - injection H as <- <- <-. simpl. lia.
  - destruct (JSON.is_digit c).
    + apply IH in H. lia.
    + injection H as <- <- <-. simpl. lia.
Qed.

Ltac split_digits :=
  repeat match goal with
  | |- context [JSON.digits ?a ?b ?c] =>
      let H := fresh "Hd" in
      destruct (JSON.digits a b c) as [[? ?] ?] eqn:H;
      apply digits_length in H
  end.

Lemma parse_sign_length s : List.length (snd (JSON.parse_sign s)) <= List.length s.
Proof. destruct s as [|c s]; simpl; [lia|]. destruct (c =? 45)%N; simpl; lia. Qed.

Lemma parse_int_length s m r :
  JSON.parse_int s = Some (m, r) -> List.length r < List.length s.
Proof.
  destruct s as [|c s]; [discriminate|]. unfold JSON.parse_int.
  destruct (c =? 48)%N.
  - intros [= <- <-]. simpl. lia.
  - destruct (JSON.is_digit c) eqn:E; [|discriminate].
    simpl JSON.digits. rewrite E. split_digits.
    intros [= <- <-]. simpl. lia.
Qed.

Lemma parse_frac_length m s m' nf r :
  JSON.parse_frac m s = Some (m', nf, r) -> List.length r <= List.length s.
Proof.
  destruct s as [|c s]; simpl.
  - intros [= <- <- <-]. simpl. lia.
  - destruct (c =? 46)%N.
    + split_digits. destruct (_ =? 0)%Z; [discriminate|].
      intros [= <- <- <-]. lia.
    + intros [= <- <- <-]. simpl. lia.
Qed.

Lemma parse_exp_length s ev r :
  JSON.parse_exp s = Some (ev, r) -> List.length r <= List.length s.
Proof.
  destruct s as [|c s]; simpl.
  - intros [= <- <-]. simpl. lia.
  - destruct ((c =? 101)%N || (c =? 69)%N).
    + destruct s as [|d t].
      * split_digits. destruct (_ =? 0)%Z; [discriminate|].
        intros [= <- <-]. simpl in *. lia.
      * destruct (d =? 45)%N; [|destruct (d =? 43)%N];
          split_digits; (destruct (_ =? 0)%Z; [discriminate|]);
          intros [= <- <-]; simpl in *; lia.
    + intros [= <- <-]. simpl. lia.
Qed.

Lemma parse_number_length s x r :
  JSON.parse_number s = Some (x, r) -> List.length r < List.length s.
Proof.
  unfold JSON.parse_number.
  pose proof (parse_sign_length s) as Hs.
  destruct (JSON.parse_sign s) as [neg s1]. simpl in Hs.
  destruct (JSON.parse_int s1) as [[m s2]|] eqn:Hi; [|discriminate].
  apply parse_int_length in Hi.
  destruct (JSON.parse_frac m s2) as [[[m' nf] s3]|] eqn:Hf; [|discriminate].
  apply parse_frac_length in Hf.
  destruct (JSON.parse_exp s3) as [[ev s4]|] eqn:He; [|discriminate].
  apply parse_exp_length in He.
  intros [= <- <-]. lia.
Qed.

Lemma parse_chars_length n : forall s acc k r,
  List.length s <= n -> JSON.parse_chars s acc = Some (k, r) -> List.length r < List.length s.
Proof.
  induction n as [|n IH]; intros s acc k r Hn.
  - destruct s; [discriminate | simpl in Hn; lia].
  - destruct s as [|c s]; [discriminate|]. simpl in Hn. simpl JSON.parse_chars.
    destruct (c =? 34)%N.
    { intros [= <- <-]. simpl. lia. }
    destruct (c =? 92)%N.
    + destruct s as [|e r0]; [discriminate|]. simpl in Hn.
      assert (Hr : forall a, JSON.parse_chars r0 a = Some (k, r) ->
                             List.length r < List.length (c :: e :: r0)).
      { intros a H. apply IH in H; [simpl; lia | lia]. }
      repeat match goal with
      | |- context [if (e =? ?x)%N then _ else _] =>
          destruct (e =? x)%N; [apply Hr|]
      end.
      destruct (e =? 117)%N; [|discriminate].
      destruct r0 as [|h1 [|h2 [|h3 [|h4 r']]]]; try discriminate.
      destruct (JSON.hex4 h1 h2 h3 h4); [|discriminate].
      intros H. apply IH in H; simpl in *; lia.
    + destruct (c <? 32)%N; [discriminate|].
      intros H. apply IH in H; simpl in *; lia.
Qed.

Lemma strip_prefix_length p : forall s r,
  JSON.strip_prefix p s = Some r -> List.length r <= List.length s.
Proof.
  induction p as [|a p IH]; intros s r; simpl.
  - intros [= <-]. lia.
  - destruct s as [|b s]; [discriminate|].
    destruct (a =? b)%N; [|discriminate].
    intros H. apply IH in H. simpl. lia.
Qed.

Lemma parse_value_S f s :
  JSON.parse_value (S f) s =
  match JSON.skip_ws s with
  | [] => None
  | c :: r =>
      if (c =? 123)%N then
        match JSON.skip_ws r with
        | d :: r' => if (d =? 125)%N then Some (JObj [], r')
                     else JSON.parse_members f r []
        | [] => None
        end
      else if (c =? 91)%N then
        match JSON.skip_ws r with
        | d :: r' => if (d =? 93)%N then Some (JArr [] [], r')
                     else JSON.parse_elements f r []
        | [] => None
        end
      else if (c =? 34)%N then
        match JSON.parse_chars r [] with
        | Some (k, r') => Some (JStr k, r')
        | None => None
        end
      else if (c =? 116)%N then
        option_map (pair (JBool true)) (JSON.strip_prefix (str "rue") r)
      else if (c =? 102)%N then
        option_map (pair (JBool false)) (JSON.strip_prefix (str "alse") r)
      else if (c =? 110)%N then
        option_map (pair JNull) (JSON.strip_prefix (str "ull") r)
      else
        match JSON.parse_number (c :: r) with
        | Some (x, r') => Some (JNum x, r')
        | None => None
        end
  end.
Proof. reflexivity. Qed.

Lemma parse_elements_S f s acc :
  JSON.parse_elements (S f) s acc =
  match JSON.parse_value f s with
  | Some (v, r) =>
      match JSON.skip_ws r with
      | d :: r' =>
          if (d =? 44)%N then JSON.parse_elements f r' (v :: acc)
          else if (d =? 93)%N then Some (JArr (rev (v :: acc)) [], r')
          else None
      | [] => None
      end
  | None => None
  end.
Proof. reflexivity. Qed.

Lemma parse_members_S f s acc :
  JSON.parse_members (S f) s acc =
  match JSON.skip_ws s with
  | q :: r =>
      if (q =? 34)%N then
        match JSON.parse_chars r [] with
        | Some (k, r1) =>
            match JSON.skip_ws r1 with
            | colon :: r2 =>
                if (colon =? 58)%N then
                  match JSON.parse_value f r2 with
                  | Some (v, r3) =>
                      let acc' := Js.update k v acc in
                      match JSON.skip_ws r3 with
                      | d :: r4 =>
                          if (d =? 44)%N then JSON.parse_members f r4 acc'
                          else if (d =? 125)%N then Some (JObj acc', r4)
                          else None
                      | [] => None
                      end
                  | None => None
                  end
                else None
            | [] => None
            end
        | None => None
        end
      else None
  | [] => None
  end.
Proof. reflexivity. Qed.

Lemma skip_ws_cons s c r : JSON.skip_ws s = c :: r -> List.length r < List.length s.
Proof. intros H. pose proof (skip_ws_length s) as L. rewrite H in L. simpl in L. lia. Qed.

Lemma parse_consumes f : forall s,
  (forall v r, JSON.parse_value f s = Some (v, r) -> List.length r < List.length s)
  /\ (forall acc v r, JSON.parse_elements f s acc = Some (v, r) -> List.length r < List.length s)
  /\ (forall acc v r, JSON.parse_members f s acc = Some (v, r) -> List.length r < List.length s).
Proof.
  induction f as [|f IH]; intros s.
  { repeat split; intros; discriminate. }
  repeat split.
  - intros v r. rewrite parse_value_S.
    destruct (JSON.skip_ws s) as [|c r0] eqn:Hs; [discriminate|].
    apply skip_ws_cons in Hs.
    destruct (c =? 123)%N.
    { destruct (JSON.skip_ws r0) as [|d r'] eqn:Hr0; [discriminate|].
      apply skip_ws_cons in Hr0.
      destruct (d =? 125)%N.
      - intros [= <- <-]. lia.
      - intros H. apply (IH r0) in H. lia. }
    destruct (c =? 91)%N.
    { destruct (JSON.skip_ws r0) as [|d r'] eqn:Hr0; [discriminate|].
      apply skip_ws_cons in Hr0.
      destruct (d =? 93)%N.
      - intros [= <- <-]. lia.
      - intros H. apply (IH r0) in H. lia. }
    destruct (c =? 34)%N.
    { destruct (JSON.parse_chars r0 []) as [[k r']|] eqn:Hc; [|discriminate].
      apply (@parse_chars_length (List.length r0)) in Hc; [|lia].
      intros [= <- <-]. lia. }
    assert (Hp : forall x p, option_map (pair x) (JSON.strip_prefix p r0)
                             = Some (v, r) -> List.length r < List.length s).
    { intros x p H. destruct (JSON.strip_prefix p r0) as [r'|] eqn:Hp;
        [|discriminate].
      apply strip_prefix_length in Hp. injection H as <- <-. lia. }
    destruct (c =? 116)%N; [apply Hp|].
    destruct (c =? 102)%N; [apply Hp|].
    destruct (c =? 110)%N; [apply Hp|].
    destruct (JSON.parse_number (c :: r0)) as [[x r']|] eqn:Hn; [|discriminate].
    apply parse_number_length in Hn. simpl in Hn.
    intros [= <- <-]. lia.
  - intros acc v r. rewrite parse_elements_S.
    destruct (JSON.parse_value f s) as [[v1 r1]|] eqn:Hv; [|discriminate].
    apply (IH s) in Hv.
    destruct (JSON.skip_ws r1) as [|d r'] eqn:Hr1; [discriminate|].
    apply skip_ws_cons in Hr1.
    destruct (d =? 44)%N.
    + intros H. apply (IH r') in H. lia.
    + destruct (d =? 93)%N; [|discriminate]. intros [= <- <-]. lia.
  - intros acc v r. rewrite parse_members_S.
    destruct (JSON.skip_ws s) as [|q r0] eqn:Hs; [discriminate|].
    apply skip_ws_cons in Hs.
    destruct (q =? 34)%N; [|discriminate].
    destruct (JSON.parse_chars r0 []) as [[k r1]|] eqn:Hc; [|discriminate].
    apply (@parse_chars_length (List.length r0)) in Hc; [|lia].
    destruct (JSON.skip_ws r1) as [|colon r2] eqn:Hr1; [discriminate|].
    apply skip_ws_cons in Hr1.
    destruct (colon =? 58)%N; [|discriminate].
    destruct (JSON.parse_value f r2) as [[v3 r3]|] eqn:Hv; [|discriminate].
    apply (IH r2) in Hv. cbn zeta.
    destruct (JSON.skip_ws r3) as [|d r4] eqn:Hr3; [discriminate|].
    apply skip_ws_cons in Hr3.
    destruct (d =? 44)%N.
    + intros H. apply (IH r4) in H. lia.
    + destruct (d =? 125)%N; [|discriminate]. intros [= <- <-]. lia.
Qed.

(** Beyond [2 * n + 2] units for a value and [2 * n + 3] for a list of
    elements or members, more fuel changes nothing. *)
Lemma parse_fuel n : forall s, List.length s <= n ->
  (forall f f', 2 * List.length s + 2 <= f -> 2 * List.length s + 2 <= f' ->
     JSON.parse_value f s = JSON.parse_value f' s)
  /\ (forall f f' acc, 2 * List.length s + 3 <= f -> 2 * List.length s + 3 <= f' ->
        JSON.parse_elements f s acc = JSON.parse_elements f' s acc)
  /\ (forall f f' acc, 2 * List.length s + 3 <= f -> 2 * List.length s + 3 <= f' ->
        JSON.parse_members f s acc = JSON.parse_members f' s acc).
Proof.
  induction n as [|n IH]; intros s Hn.
  - destruct s; [|simpl in Hn; lia].
    repeat split; intros f f'; intros;
      (destruct f as [|f]; [simpl in *; lia|]);
      (destruct f' as [|f']; [simpl in *; lia|]).
    + reflexivity.
    + rewrite !parse_elements_S.
      destruct f as [|f]; [simpl in *; lia|].
      destruct f' as [|f']; [simpl in *; lia|]. reflexivity.
    + reflexivity.
  - assert (V : forall f f', 2 * List.length s + 2 <= f -> 2 * List.length s + 2 <= f' ->
                  JSON.parse_value f s = JSON.parse_value f' s).
    { intros f f' Hf Hf'.
      destruct f as [|f]; [lia|]. destruct f' as [|f']; [lia|].
      rewrite !parse_value_S.
      destruct (JSON.skip_ws s) as [|c r0] eqn:Hs; [reflexivity|].
      apply skip_ws_cons in Hs.
      destruct (IH r0 ltac:(lia)) as (_ & E0 & M0).
      rewrite (E0 f f' []) by lia. rewrite (M0 f f' []) by lia.
      reflexivity. }
    split; [exact V|]. split.
    + intros f f' acc Hf Hf'.
      destruct f as [|f]; [lia|]. destruct f' as [|f']; [lia|].
      rewrite !parse_elements_S. rewrite (V f f') by lia.
      destruct (JSON.parse_value f' s) as [[v1 r1]|] eqn:Hv; [|reflexivity].
      apply (parse_consumes f' s) in Hv.
      destruct (JSON.skip_ws r1) as [|d r'] eqn:Hr1; [reflexivity|].
      apply skip_ws_cons in Hr1.
      destruct (IH r' ltac:(lia)) as (_ & E0 & _).
      rewrite (E0 f f') by lia. reflexivity.
    + intros f f' acc Hf Hf'.
      destruct f as [|f]; [lia|]. destruct f' as [|f']; [lia|].
      rewrite !parse_members_S.
      destruct (JSON.skip_ws s) as [|q r0] eqn:Hs; [reflexivity|].
      apply skip_ws_cons in Hs.
      destruct (q =? 34)%N; [|reflexivity].
      destruct (JSON.parse_chars r0 []) as [[k r1]|] eqn:Hc; [|reflexivity].
      apply (@parse_chars_length (List.length r0)) in Hc; [|lia].
      destruct (JSON.skip_ws r1) as [|colon r2] eqn:Hr1; [reflexivity|].
      apply skip_ws_cons in Hr1.
      destruct (colon =? 58)%N; [|reflexivity].
      destruct (IH r2 ltac:(lia)) as (V2 & _ & _).
      rewrite (V2 f f') by lia.
      destruct (JSON.parse_value f' r2) as [[v3 r3]|] eqn:Hv; [|reflexivity].
      apply (parse_consumes f' r2) in Hv. cbn zeta.
      destruct (JSON.skip_ws r3) as [|d r4] eqn:Hr3; [reflexivity|].
      apply skip_ws_cons in Hr3.
      destruct (IH r4 ltac:(lia)) as (_ & _ & M4).
      rewrite (M4 f f') by lia. reflexivity.
Qed.

(** The fuel [JSON.parse] gives is enough: with any larger amount the
    parser answers the same. *)
Lemma parse_value_enough_fuel (text : jsstring) (fuel : nat) :
  2 * List.length text + 2 <= fuel ->
  JSON.parse_value fuel text
  = JSON.parse_value (2 * List.length text + 2) text.
Proof.
  intros H. destruct (@parse_fuel (List.length text) text (le_n _)) as (V & _ & _).
  apply V; lia.
Qed.

(* ===================================================================== *)
(** ** Properties: effects *)
(* ===================================================================== *)

Lemma bind_lift {A B} (r : result A) (k : A -> M B) log :
  bind (lift r) k log =
  match r with
  | Ok a => k a log
  | Throw e => (Throw e, log)
  end.
Proof. unfold bind, lift. now destruct r. Qed.

Lemma bind_ret {A B} (a : A) (k : A -> M B) log : bind (ret a) k log = k a log.
Proof. reflexivity. Qed.

Lemma bind_call {B} up c (k : JsVal -> M B) log :
  bind (call up c) k log =
  match up c with
  | Ok a => k a (log ++ [c])
  | Throw e => (Throw e, log ++ [c])
  end.
Proof. unfold bind, call. now destruct (up c). Qed.

Lemma destructure_obj ps k d :
  Js.destructure (JObj ps) k d = Ok (Js.default (Js.own k ps) d).
Proof. reflexivity. Qed.

(** The news handler on a query object, step by step. *)
Lemma api_news_obj up env ps :
  api_news up env (JObj ps) =
  if negb (Js.truthy (NEWS_API_KEY env)) then
    (mkResponse 500 (error_body news_key_missing), [])
  else
    match news_request (NEWS_API_KEY env)
            (Js.default (Js.own (str "q") ps) (JStr []))
            (Js.default (Js.own (str "country") ps) (JStr []))
            (Js.default (Js.own (str "category") ps) (JStr []))
            (Js.default (Js.own (str "from") ps) (JStr []))
            (Js.default (Js.own (str "to") ps) (JStr []))
            (Js.default (Js.own (str "pageSize") ps) (JStr (str "10")))
            (Js.default (Js.own (str "page") ps) (JStr (str "1")))
            (Js.default (Js.own (str "sortBy") ps) (JStr (str "publishedAt")))
    with
    | Throw _ => (news_failed, [])
    | Ok request =>
        let c := AxiosGet (fst request) (snd request) in
        match up c with
        | Throw _ => (news_failed, [c])
        | Ok data =>
            (match news_response data with
             | Ok r => r
             | Throw _ => news_failed
             end, [c])
        end
    end.
Proof.
  unfold api_news, try_catch, news_body.
  repeat (rewrite bind_lift, destructure_obj).
  destruct (negb (Js.truthy (NEWS_API_KEY env))); [reflexivity|].
  rewrite bind_lift.
  destruct (news_request _ _ _ _ _ _ _ _ _) as [request|e]; [|reflexivity].
  rewrite bind_call. simpl.
  destruct (up _) as [data|e]; [|reflexivity].
  unfold lift. now destruct (news_response data).
Qed.

(** The enrich handler on a body object, step by step. *)
Lemma api_ai_enrich_obj up env ps :
  api_ai_enrich up env (JObj ps) =
  if negb (JSString.eqb (AI_PROVIDER env) (str "openai"))
     || match openaiClient env with None => true | Some _ => false end
  then (mkResponse 500 (error_body provider_missing), [])
  else
    match text_blob (Js.default (Js.own (str "title") ps) (JStr []))
                    (Js.default (Js.own (str "description") ps) (JStr []))
                    (Js.default (Js.own (str "content") ps) (JStr []))
    with
    | Throw _ => (enrich_failed, [])
    | Ok text =>
        let c := chat_request text in
        match up c with
        | Throw _ => (enrich_failed, [c])
        | Ok completion =>
            (match enrich_response completion with
             | Ok r => r
             | Throw _ => enrich_failed
             end, [c])
        end
    end.
Proof.
  unfold api_ai_enrich, try_catch, enrich_body.
  repeat (rewrite bind_lift, destructure_obj).
  match goal with |- context [if ?b then _ else _] => destruct b end;
    [reflexivity|].
  rewrite bind_lift.
  destruct (text_blob _ _ _) as [text|e]; [|reflexivity].
  rewrite bind_call. simpl.
  destruct (up _) as [completion|e]; [|reflexivity].
  unfold lift. now destruct (enrich_response completion).
Qed.

(* ===================================================================== *)
(** ** Configuration errors *)
(* ===================================================================== *)

Lemma news_configured_truthy env :
  news_configured env <-> Js.truthy (NEWS_API_KEY env) = true.
Proof.
  unfold news_configured, NEWS_API_KEY. split.
  - intros (key & -> & Hne). simpl. destruct key; congruence.
  - destruct (env_NEWS_API_KEY env) as [[|c key]|]; simpl; try discriminate.
    intros _. exists (c :: key). split; congruence.
Qed.

Lemma enrich_configured_client env :
  enrich_configured env <->
  (negb (JSString.eqb (AI_PROVIDER env) (str "openai"))
   || match openaiClient env with None => true | Some _ => false end) = false.
Proof.
  unfold enrich_configured, openaiClient. split.
  - intros (Hp & key & Hk & Hne). rewrite Hp, Hk.
    destruct key; [congruence | reflexivity].
  - destruct (JSString.eqb (AI_PROVIDER env) (str "openai")) eqn:E; simpl;
      [|discriminate].
    apply eqb_eq in E.
    destruct (env_OPENAI_API_KEY env) as [[|c key]|]; simpl; try discriminate.
    intros _. split; [assumption|]. exists (c :: key). split; congruence.
Qed.

(** C4. When the credential an endpoint needs is missing ([NEWS_API_KEY]
    for the news endpoint; [AI_PROVIDER] naming [openai] together with
    [OPENAI_API_KEY] for the enrich endpoint), the handler answers 500 with
    the message that says how to supply it, and no upstream call is made.
    The query of a request is an object; the body of an enrich request is
    whatever the body parser produced, as long as it is a value that can be
    destructured. *)
Theorem missing_configuration_no_upstream_call
    (upstream : UpstreamCall -> result JsVal) (env : Env)
    (query : props_t) (req_body : JsVal) :
  (~ news_configured env ->
   api_news upstream env (JObj query)
   = (mkResponse 500 (error_body news_key_missing), []))
  /\
  (~ enrich_configured env -> Js.nullish req_body = false ->
   api_ai_enrich upstream env req_body
   = (mkResponse 500 (error_body provider_missing), [])).
Proof.
  split.
  - intros Hcfg.
    assert (Hk : Js.truthy (NEWS_API_KEY env) = false).
    { destruct (Js.truthy (NEWS_API_KEY env)) eqn:E; [|reflexivity].
      now apply news_configured_truthy in E. }
    unfold api_news, try_catch, news_body.
    repeat (rewrite bind_lift, destructure_obj).
    now rewrite Hk.
  - intros Hcfg Hbody.
    assert (Hc : (negb (JSString.eqb (AI_PROVIDER env) (str "openai"))
                  || match openaiClient env with None => true | Some _ => false end)
                 = true).
    { match goal with |- ?b = true => destruct b eqn:E end; [reflexivity|].
      now apply enrich_configured_client in E. }
    unfold api_ai_enrich, try_catch, enrich_body.
    assert (Hd : forall k d, exists x, Js.destructure req_body k d = Ok x).
    { intros k d. unfold Js.destructure.
      destruct req_body; simpl in *; try discriminate; eauto. }
    repeat match goal with
    | |- context [Js.destructure req_body ?k ?d] =>
        let x := fresh "x" in let Hx := fresh "Hx" in
        destruct (Hd k d) as [x Hx]; rewrite bind_lift, Hx; clear Hx
    end.
    now rewrite Hc.
Qed.

Lemma missing_configuration_witness :
  api_news (fun _ => Throw UpstreamFailure) (mkEnv None (Some (str "azure")) None)
           (JObj [(str "q", JStr (str "climate"))])
  = (mkResponse 500 (error_body news_key_missing), [])
  /\ api_ai_enrich (fun _ => Throw UpstreamFailure)
                   (mkEnv None (Some (str "azure")) None)
                   (JObj [(str "title", JStr (str "T"))])
     = (mkResponse 500 (error_body provider_missing), []).
Proof.
  destruct (@missing_configuration_no_upstream_call
              (fun _ => Throw UpstreamFailure)
              (mkEnv None (Some (str "azure")) None)
              [(str "q", JStr (str "climate"))]
              (JObj [(str "title", JStr (str "T"))])) as [Hnews Henrich].
  split.
  - apply Hnews. intros (key & Hkey & _). discriminate.
  - apply Henrich.
    + intros (Hprovider & _). vm_compute in Hprovider. discriminate.
    + reflexivity.
Defined.

(** Without a body to destructure ([req.body] undefined) the handler ends
    in its [catch]: still a 500 and no upstream call, with the generic
    message. *)
Lemma enrich_without_body upstream env req_body :
  Js.nullish req_body = true ->
  api_ai_enrich upstream env req_body = (enrich_failed, []).
Proof. destruct req_body; simpl; try discriminate; reflexivity. Qed.

(* ===================================================================== *)
(** ** Article normalisation *)
(* ===================================================================== *)

Lemma normalizeArticle_obj ps :
  normalizeArticle (JObj ps) = Ok (JObj (normalized_props ps)).
Proof. reflexivity. Qed.

(** In memory the object has its eight own properties, in this order;
    [url] may hold [undefined]. *)
Lemma normalized_props_keys ps :
  map fst (normalized_props ps)
  = [ k_title; k_source; k_author; k_description; k_content; k_url;
      k_urlToImage; k_publishedAt ].
Proof. reflexivity. Qed.

Ltac each_field H :=
  simpl in H;
  repeat (destruct H as [H|H]; [try (injection H as <- <-); try subst|]);
  [..|contradiction].

Lemma absent_field_default ps k d :
  In (k, d) field_defaults -> Js.lookup k ps = None ->
  Js.lookup k (normalized_props ps) = Some d.
Proof.
  intros Hin Habs.
  assert (Hown : Js.own k ps = JUndefined) by (unfold Js.own; now rewrite Habs).
  each_field Hin; unfold normalized_props;
    match goal with
    | |- Js.lookup ?k _ = _ => fold k in Hown
    end; rewrite ?Hown; reflexivity.
Qed.

(** C6 (as the code has it). For every upstream record whose [source] is
    absent the normalised article's [source] is ["Unknown"]; [title],
    [description] and [content] are the empty string when absent. *)
Theorem absent_source_is_Unknown (ps : props_t) (k : jsstring) (d : JsVal) :
  In (k, d) [ (k_source, JStr (str "Unknown")); (k_title, JStr []);
              (k_description, JStr []); (k_content, JStr []) ] ->
  Js.lookup k ps = None ->
  exists art, normalizeArticle (JObj ps) = Ok (JObj art)
              /\ Js.lookup k art = Some d.
Proof.
  intros Hin Habs. exists (normalized_props ps). split; [reflexivity|].
  apply absent_field_default; [|assumption].
  simpl in Hin |- *. tauto.
Qed.

Lemma absent_source_is_Unknown_witness :
  exists art, normalizeArticle (JObj [(k_title, JStr (str "Hello"))]) = Ok (JObj art)
              /\ Js.lookup k_source art = Some (JStr (str "Unknown")).
Proof.
  apply (@absent_source_is_Unknown [(k_title, JStr (str "Hello"))]
           k_source (JStr (str "Unknown"))).
  - simpl. left. reflexivity.
  - reflexivity.
Defined.

(** C6 as stated fails: the record [{}] has no [source], and its article's
    [source] is not the empty string. *)
Lemma absent_source_not_empty :
  Js.lookup k_source [] = None /\
  exists art, normalizeArticle (JObj []) = Ok (JObj art)
              /\ Js.lookup k_source art = Some (JStr (str "Unknown"))
              /\ Js.lookup k_source art <> Some (JStr []).
Proof.
  split; [reflexivity|].
  exists (normalized_props []). repeat split. vm_compute. discriminate.
Qed.

Lemma normalized_props_update_falsy ps k v :
  In k defaulted_fields -> Js.truthy v = false ->
  normalized_props (Js.update k v ps) = normalized_props (Js.remove k ps).
Proof.
  intros Hin Hv. unfold defaulted_fields in Hin.
  each_field Hin; unfold normalized_props;
    rewrite ?own_update_same, ?own_remove_same,
            ?own_update_other, ?own_remove_other by reflexivity;
    rewrite ?(@get_opt_falsy v _ Hv), ?(@or_falsy v _ Hv); reflexivity.
Qed.

(** C9. Defaulting goes by truthiness: a field that is present with a
    falsy value is normalised exactly as if it were absent, and comes out
    as the default documented for it (the empty string for [title],
    [description], [content] and [publishedAt], ["Unknown"] for [source],
    [null] for [author] and [urlToImage]); hence [author] and [urlToImage]
    are never the empty string in the output, and a falsy [title],
    [description], [content] or [publishedAt] in the output is the empty
    string. *)
Theorem falsy_field_as_absent (ps : props_t) (k : jsstring) (v : JsVal) :
  In k defaulted_fields -> Js.truthy v = false ->
  normalizeArticle (JObj (Js.update k v ps))
  = normalizeArticle (JObj (Js.remove k ps))
  /\ (exists d art,
        In (k, d) field_defaults
        /\ normalizeArticle (JObj (Js.update k v ps)) = Ok (JObj art)
        /\ Js.lookup k art = Some d)
  /\ (forall record art, normalizeArticle (JObj record) = Ok (JObj art) ->
        Js.own k_author art <> JStr [] /\
        Js.own k_urlToImage art <> JStr [] /\
        forall f, In f [k_title; k_description; k_content; k_publishedAt] ->
                  Js.truthy (Js.own f art) = false -> Js.own f art = JStr []).
Proof.
  intros Hin Hv. rewrite !normalizeArticle_obj. split; [|split].
  - now rewrite normalized_props_update_falsy.
  - pose proof Hin as Hd. unfold defaulted_fields in Hd.
    apply in_map_iff in Hd. destruct Hd as ([k' d] & Hk & Hd).
    cbn [fst] in Hk. subst k'.
    exists d, (normalized_props (Js.update k v ps)).
    split; [exact Hd|]. split; [reflexivity|].
    rewrite normalized_props_update_falsy by assumption.
    apply absent_field_default; [exact Hd | apply lookup_remove_same].
  - intros r art [= <-].
    assert (Hor : forall x d, Js.truthy d = false ->
                    Js.truthy (Js.or x d) = false -> Js.or x d = d).
    { intros x d Hd. unfold Js.or. destruct (Js.truthy x) eqn:E; congruence. }
    assert (Hne : forall x, Js.or x JNull <> JStr []).
    { intros x. unfold Js.or. destruct (Js.truthy x) eqn:E; [|discriminate].
      intros ->. discriminate. }
    repeat split.
    + apply Hne.
    + apply Hne.
    + intros f Hf. each_field Hf; apply Hor; reflexivity.
Qed.

Lemma falsy_field_as_absent_witness :
  normalizeArticle (JObj (Js.update k_author (JStr []) [(k_author, JStr (str "Al"))]))
  = normalizeArticle (JObj (Js.remove k_author [(k_author, JStr (str "Al"))]))
  /\ exists d art,
       In (k_author, d) field_defaults
       /\ normalizeArticle
            (JObj (Js.update k_author (JStr []) [(k_author, JStr (str "Al"))]))
          = Ok (JObj art)
       /\ Js.lookup k_author art = Some d.
Proof.
  destruct (@falsy_field_as_absent [(k_author, JStr (str "Al"))] k_author (JStr []))
    as (Habsent & Hdefault & _).
  - simpl. right. right. left. reflexivity.
  - reflexivity.
  - split; [exact Habsent | exact Hdefault].
Defined.

(** The defaults at work: an empty [author] comes out as [null], a [null]
    [source] as ["Unknown"], a zero [title] as the empty string. *)
Example falsy_fields_defaulted :
  exists art,
    normalizeArticle
      (JObj [ (k_title, JNum (S754_zero false)); (k_source, JNull);
              (k_author, JStr []) ])
    = Ok (JObj art)
    /\ Js.lookup k_title art = Some (JStr [])
    /\ Js.lookup k_source art = Some (JStr (str "Unknown"))
    /\ Js.lookup k_author art = Some JNull.
Proof. eexists. repeat split. Qed.

(* ===================================================================== *)
(** ** What [res.json] sends *)
(* ===================================================================== *)

Lemma serialize_obj ps :
  JSON.serialize (JObj ps) = JObj (map serialize_member (filter written ps)).
Proof.
  simpl. f_equal. induction ps as [|[k x] ps IH]; [reflexivity|].
  rewrite IH. now destruct x.
Qed.

Lemma serialize_arr elems named :
  JSON.serialize (JArr elems named) = JArr (map serialize_element elems) [].
Proof. reflexivity. Qed.

Lemma written_or k x d : d <> JUndefined -> written (k, Js.or x d) = true.
Proof.
  intros Hd. pose proof (@or_defined x d Hd) as H.
  unfold written. simpl. now destruct (Js.or x d).
Qed.

Lemma sent_article_cases ps :
  sent_article ps =
  [ serialize_member (k_title, Js.or (Js.own k_title ps) (JStr []));
    serialize_member (k_source, Js.or (Js.get_opt (Js.own k_source ps) (str "name"))
                                      (JStr (str "Unknown")));
    serialize_member (k_author, Js.or (Js.own k_author ps) JNull);
    serialize_member (k_description, Js.or (Js.own k_description ps) (JStr []));
    serialize_member (k_content, Js.or (Js.own k_content ps) (JStr [])) ]
  ++ (if written (k_url, Js.own k_url ps)
      then [serialize_member (k_url, Js.own k_url ps)] else [])
  ++ [ serialize_member (k_urlToImage, Js.or (Js.own k_urlToImage ps) JNull);
       serialize_member (k_publishedAt, Js.or (Js.own k_publishedAt ps) (JStr [])) ].
Proof.
  unfold sent_article, normalized_props.
  cbn [filter].
  rewrite !written_or by discriminate.
  now destruct (written (k_url, Js.own k_url ps)).
Qed.

Lemma sent_article_for ps : article_for ps (sent_article ps).
Proof.
  unfold article_for. rewrite sent_article_cases.
  repeat split.
  - intros k Hk. unfold defaulted_fields in Hk.
    each_field Hk; now destruct (written (k_url, Js.own k_url ps)).
  - now destruct (written (k_url, Js.own k_url ps)).
  - intros k d Hin Habs.
    assert (Hown : Js.own k ps = JUndefined) by (unfold Js.own; now rewrite Habs).
    each_field Hin;
      match goal with
      | |- Js.lookup ?k _ = _ => fold k in Hown
      end; rewrite ?Hown;
      now destruct (written (k_url, Js.own k_url ps)).
Qed.

Lemma map_result_normalize records :
  map_result normalizeArticle (map JObj records)
  = Ok (map (fun ps => JObj (normalized_props ps)) records).
Proof.
  induction records as [|ps records IH]; [reflexivity|].
  cbn [map map_result]. rewrite normalizeArticle_obj. cbn [rbind].
  now rewrite IH.
Qed.

Lemma news_response_records data records :
  Js.get data (str "articles") = Ok (JArr (map JObj records) []) ->
  exists r, news_response data = Ok r /\ status r = 200
            /\ response_articles r = JArr (map JObj (map sent_article records)) [].
Proof.
  intros Hget. unfold news_response. rewrite Hget. simpl rbind.
  unfold array_map. simpl Js.or. rewrite map_result_normalize. simpl rbind.
  assert (Ht : exists t, Js.get data (str "totalResults") = Ok t).
  { destruct data; simpl in Hget; try discriminate; eexists; reflexivity. }
  destruct Ht as [t ->]. simpl rbind.
  eexists. split; [reflexivity|]. split; [reflexivity|].
  unfold response_articles, res_json. cbn [body].
  rewrite serialize_obj. cbn [filter].
  rewrite written_or by discriminate.
  change (written (str "articles", JArr ?l [])) with true.
  cbn [map]. unfold serialize_member at 1 2. cbn [fst snd].
  rewrite serialize_arr.
  change (Js.get_opt (JObj ?l) ?k) with (Js.own k l).
  unfold Js.own. cbn [Js.lookup].
  change (JSString.eqb (str "articles") (str "totalResults")) with false.
  change (JSString.eqb (str "articles") (str "articles")) with true.
  cbn iota. f_equal.
  rewrite !map_map. apply map_ext. intros ps.
  unfold serialize_element. rewrite serialize_obj. reflexivity.
Qed.

(* ===================================================================== *)
(** ** Requests whose parameters are strings *)
(* ===================================================================== *)

Lemma lookup_string_valued ps k v :
  string_valued ps -> Js.lookup k ps = Some v -> exists s, v = JStr s.
Proof.
  induction 1 as [|[k' x] ps [s Hs] _ IH]; simpl; [discriminate|].
  destruct (JSString.eqb k k'); [|exact IH].
  intros [= <-]. now exists s.
Qed.

Lemma default_param ps k d :
  string_valued ps -> Js.default (Js.own k ps) (JStr d) = JStr (param ps k d).
Proof.
  intros Hps. unfold Js.own, param.
  destruct (Js.lookup k ps) as [v|] eqn:E; [|reflexivity].
  destruct (lookup_string_valued _ Hps E) as [s ->]. reflexivity.
Qed.

(* ===================================================================== *)
(** ** Mode selection of the news endpoint *)
(* ===================================================================== *)

(** Decide every test [eqb k c] of the goal: where it holds [k] is the
    constant and the goal computes. *)
Ltac by_key k :=
  repeat match goal with
  | |- context [JSString.eqb k ?c] =>
      let E := fresh "E" in
      destruct (JSString.eqb k c) eqn:E;
      [apply eqb_eq in E; subst k; reflexivity|]
  end;
  reflexivity.

Lemma news_request_strings key q country category from to pageSize page sortBy :
  exists params,
    news_request (JStr key) (JStr q) (JStr country) (JStr category)
                 (JStr from) (JStr to) (JStr pageSize) (JStr page) (JStr sortBy)
    = Ok (if headlines_mode country category
          then top_headlines_url else everything_url, params)
    /\ forall k,
         Js.lookup k params =
         if headlines_mode country category
         then headlines_forwarded key q country category pageSize page k
         else search_forwarded key q from to sortBy pageSize page k.
Proof.
  unfold news_request, headlines_mode.
  destruct country as [|c0 country], category as [|c1 category].
  - (* search mode *)
    destruct q as [|c2 q], from as [|c3 from], to as [|c4 to];
      (eexists; split; [reflexivity|]);
      intros k; unfold search_forwarded, forwarded_if_nonempty, set_if;
      cbn [Js.truthy Js.or Js.update Js.own Js.lookup negb nonempty orb];
      cbn; by_key k.
  - destruct q as [|c2 q];
      (eexists; split; [reflexivity|]);
      intros k; unfold headlines_forwarded, forwarded_if_nonempty, set_if;
      cbn; by_key k.
  - destruct q as [|c2 q];
      (eexists; split; [reflexivity|]);
      intros k; unfold headlines_forwarded, forwarded_if_nonempty, set_if;
      cbn; by_key k.
  - destruct q as [|c2 q];
      (eexists; split; [reflexivity|]);
      intros k; unfold headlines_forwarded, forwarded_if_nonempty, set_if;
      cbn; by_key k.
Qed.

(** C3. For every request to the news endpoint whose parameters are
    strings (and a configured key), the [category] being written in Basic
    Latin and the Latin-1 Supplement, where the lowering of [toLowerCase] is
    tabulated: when [country] or [category] is non-empty the one upstream
    call goes to the headlines endpoint with [country], the lowercased
    [category] and [q], each when non-empty, and [pageSize] and [page];
    otherwise it goes to the search endpoint with [q], [from] and [to] when
    non-empty, [sortBy], [pageSize] and [page], an empty [q] being replaced
    with ["news"]. *)
Theorem news_mode_selection
    (upstream : UpstreamCall -> result JsVal) (env : Env) (key : jsstring)
    (query : props_t) :
  env_NEWS_API_KEY env = Some key -> key <> [] -> string_valued query ->
  tabulated (param query (str "category") []) = true ->
  let q := param query (str "q") [] in
  let country := param query (str "country") [] in
  let category := param query (str "category") [] in
  let from := param query (str "from") [] in
  let to := param query (str "to") [] in
  let pageSize := param query (str "pageSize") (str "10") in
  let page := param query (str "page") (str "1") in
  let sortBy := param query (str "sortBy") (str "publishedAt") in
  exists params,
    snd (api_news upstream env (JObj query))
    = [AxiosGet (if headlines_mode country category
                 then top_headlines_url else everything_url) params]
    /\ forall k,
         Js.lookup k params =
         if headlines_mode country category
         then headlines_forwarded key q country category pageSize page k
         else search_forwarded key q from to sortBy pageSize page k.
Proof.
  intros Hkey Hne Hq _. intros.
  rewrite api_news_obj. unfold NEWS_API_KEY. rewrite Hkey. cbn [env_value].
  replace (Js.truthy (JStr key)) with true
    by (destruct key; [congruence | reflexivity]).
  cbn [negb]. rewrite !default_param by assumption.
  destruct (news_request_strings key q country category from to pageSize page sortBy)
    as (params & Hreq & Hparams).
  subst q country category from to pageSize page sortBy.
  rewrite Hreq. exists params. split; [|exact Hparams].
  cbn [fst snd].
  destruct (upstream _); reflexivity.
Qed.

Lemma news_mode_selection_witness :
  exists params,
    snd (api_news (fun _ => Throw UpstreamFailure)
                  (mkEnv (Some (str "KEY")) None None)
                  (JObj [ (str "category", JStr (str "Technology"));
                          (str "q", JStr (str "AI")) ]))
    = [AxiosGet top_headlines_url params]
    /\ Js.lookup (str "category") params = Some (JStr (str "technology"))
    /\ Js.lookup (str "q") params = Some (JStr (str "AI"))
    /\ Js.lookup (str "country") params = None.
Proof.
  destruct (@news_mode_selection (fun _ => Throw UpstreamFailure)
              (mkEnv (Some (str "KEY")) None None) (str "KEY")
              [ (str "category", JStr (str "Technology"));
                (str "q", JStr (str "AI")) ])
    as (params & Hcall & Hparams).
  - reflexivity.
  - discriminate.
  - repeat constructor; eexists; reflexivity.
  - reflexivity.
  - exists params. split; [exact Hcall|].
    rewrite !Hparams. repeat split; reflexivity.
Defined.

(** The category reaches the provider in lower case, capitals of the
    Latin-1 Supplement included: U+00C9 becomes U+00E9. *)
Example mode_category_capitals upstream :
  snd (api_news upstream (mkEnv (Some (str "KEY")) None None)
         (JObj [(str "category", JStr (str "SANT" ++ [201%N]))]))
  = [AxiosGet top_headlines_url
       [ (str "apiKey", JStr (str "KEY")); (str "pageSize", JStr (str "10"));
         (str "page", JStr (str "1"));
         (str "category", JStr (str "sant" ++ [233%N])) ]].
Proof. rewrite api_news_obj. cbn. now destruct (upstream _). Qed.

(** The three requests the specification lists for mode selection. *)
Example mode_country_us upstream :
  snd (api_news upstream (mkEnv (Some (str "KEY")) None None)
         (JObj [(str "country", JStr (str "us"))]))
  = [AxiosGet top_headlines_url
       [ (str "apiKey", JStr (str "KEY")); (str "pageSize", JStr (str "10"));
         (str "page", JStr (str "1")); (str "country", JStr (str "us")) ]].
Proof. rewrite api_news_obj. cbn. now destruct (upstream _). Qed.

Example mode_q_climate upstream :
  snd (api_news upstream (mkEnv (Some (str "KEY")) None None)
         (JObj [(str "q", JStr (str "climate"))]))
  = [AxiosGet everything_url
       [ (str "apiKey", JStr (str "KEY")); (str "pageSize", JStr (str "10"));
         (str "page", JStr (str "1")); (str "q", JStr (str "climate"));
         (str "sortBy", JStr (str "publishedAt")) ]].
Proof. rewrite api_news_obj. cbn. now destruct (upstream _). Qed.

Example mode_q_empty upstream :
  snd (api_news upstream (mkEnv (Some (str "KEY")) None None)
         (JObj [(str "q", JStr [])]))
  = [AxiosGet everything_url
       [ (str "apiKey", JStr (str "KEY")); (str "pageSize", JStr (str "10"));
         (str "page", JStr (str "1")); (str "sortBy", JStr (str "publishedAt"));
         (str "q", JStr (str "news")) ]].
Proof. rewrite api_news_obj. cbn. now destruct (upstream _). Qed.

(* ===================================================================== *)
(** ** The articles of a news response *)
(* ===================================================================== *)

Lemma api_news_reaches_upstream up env query data :
  news_configured env -> string_valued query -> (forall c, up c = Ok data) ->
  fst (api_news up env (JObj query))
  = match news_response data with
    | Ok r => r
    | Throw _ => news_failed
    end.
Proof.
  intros Hcfg Hq Hup. rewrite api_news_obj.
  pose proof (proj1 (news_configured_truthy env) Hcfg) as Ht.
  rewrite Ht. cbn [negb].
  destruct Hcfg as (key & Hkey & _).
  unfold NEWS_API_KEY. rewrite Hkey.
  cbn [env_value]. rewrite !default_param by assumption.
  destruct (news_request_strings key (param query (str "q") [])
              (param query (str "country") []) (param query (str "category") [])
              (param query (str "from") []) (param query (str "to") [])
              (param query (str "pageSize") (str "10"))
              (param query (str "page") (str "1"))
              (param query (str "sortBy") (str "publishedAt")))
    as (params & -> & _).
  cbn [fst snd]. now rewrite Hup.
Qed.

(** C2 (as the code has it). For every upstream record object, whatever
    fields it carries, the article sent for it has the seven keys [title],
    [source], [author], [description], [content], [urlToImage] and
    [publishedAt], with the default where the record lacks the field; the
    key [url] is sent exactly when the record carries a [url]. *)
Theorem news_articles_keys
    (upstream : UpstreamCall -> result JsVal) (env : Env) (query : props_t)
    (data : JsVal) (records : list props_t) :
  news_configured env -> string_valued query ->
  (forall c, upstream c = Ok data) ->
  Js.get data (str "articles") = Ok (JArr (map JObj records) []) ->
  exists arts,
    status (fst (api_news upstream env (JObj query))) = 200
    /\ response_articles (fst (api_news upstream env (JObj query)))
       = JArr (map JObj arts) []
    /\ Forall2 article_for records arts.
Proof.
  intros Hcfg Hq Hup Hget.
  rewrite (api_news_reaches_upstream _ Hcfg Hq Hup).
  destruct (news_response_records _ _ Hget) as (r & -> & Hst & Harts).
  exists (map sent_article records). repeat split; try assumption.
  clear. induction records as [|ps records IH]; constructor; auto.
  apply sent_article_for.
Qed.

Lemma news_articles_keys_witness :
  exists arts,
    status (fst (api_news (always (payload [[(k_title, JStr (str "T"))]]))
                          news_env (JObj []))) = 200
    /\ response_articles
         (fst (api_news (always (payload [[(k_title, JStr (str "T"))]]))
                        news_env (JObj [])))
       = JArr (map JObj arts) []
    /\ Forall2 article_for [[(k_title, JStr (str "T"))]] arts.
Proof.
  apply (@news_articles_keys (always (payload [[(k_title, JStr (str "T"))]]))
           news_env [] (payload [[(k_title, JStr (str "T"))]])
           [[(k_title, JStr (str "T"))]]).
  - exists (str "KEY"). split; [reflexivity | discriminate].
  - constructor.
  - intros c. reflexivity.
  - reflexivity.
Defined.

(** C2 as stated fails: for the record [{}] the response is a 200 whose one
    article has no [url] key ([url: undefined] is not written by
    [res.json]). *)
Lemma article_without_url :
  let r := fst (api_news (always (payload [[]])) news_env (JObj [])) in
  status r = 200
  /\ exists art, response_articles r = JArr [JObj art] []
                 /\ Js.has k_url art = false
                 /\ List.length art = 7.
Proof.
  split; [reflexivity|].
  eexists. split; [vm_compute; reflexivity|]. split; reflexivity.
Qed.

Lemma response_articles_total t t' a :
  response_articles
    (res_json (JObj [ (str "totalResults", Js.or t (JNum (S754_zero false)));
                      (str "articles", a) ]))
  = response_articles
      (res_json (JObj [ (str "totalResults", Js.or t' (JNum (S754_zero false)));
                        (str "articles", a) ])).
Proof.
  unfold response_articles, res_json. cbn [body].
  rewrite !serialize_obj. cbn [filter].
  rewrite !written_or by discriminate.
  destruct (written (str "articles", a)); reflexivity.
Qed.

Lemma get_total data k x :
  Js.get data k = Ok x -> exists t, Js.get data (str "totalResults") = Ok t.
Proof. destruct data; simpl; try discriminate; eauto. Qed.

Lemma news_response_agree d1 d2 :
  Js.get d1 (str "articles") = Js.get d2 (str "articles") ->
  let r1 := match news_response d1 with Ok r => r | Throw _ => news_failed end in
  let r2 := match news_response d2 with Ok r => r | Throw _ => news_failed end in
  status r1 = status r2 /\ response_articles r1 = response_articles r2.
Proof.
  intros Hget. unfold news_response. rewrite Hget.
  destruct (Js.get d2 (str "articles")) as [listed|e] eqn:E2;
    [|split; reflexivity].
  cbn [rbind].
  destruct (array_map normalizeArticle (Js.or listed (JArr [] []))) as [arts|e];
    [|split; reflexivity].
  cbn [rbind].
  destruct (get_total _ _ Hget) as [t1 ->].
  destruct (get_total _ _ E2) as [t2 ->].
  cbn [rbind]. split; [reflexivity|]. apply response_articles_total.
Qed.

(** C8. The normalisation is a function of the upstream records alone:
    two calls with the same parameters whose upstream payloads carry equal
    records answer with the same status and structurally equal articles,
    whatever else the payloads differ in; and when the records are
    objects, each article sent is [sent_article] of its own record. *)
Theorem normalization_deterministic
    (up1 up2 : UpstreamCall -> result JsVal) (env : Env) (query : props_t)
    (d1 d2 : JsVal) :
  (forall c, up1 c = Ok d1) -> (forall c, up2 c = Ok d2) ->
  Js.get d1 (str "articles") = Js.get d2 (str "articles") ->
  status (fst (api_news up1 env (JObj query)))
  = status (fst (api_news up2 env (JObj query)))
  /\ response_articles (fst (api_news up1 env (JObj query)))
     = response_articles (fst (api_news up2 env (JObj query)))
  /\ (forall records,
        news_configured env -> string_valued query ->
        Js.get d1 (str "articles") = Ok (JArr (map JObj records) []) ->
        response_articles (fst (api_news up2 env (JObj query)))
        = JArr (map JObj (map sent_article records)) []).
Proof.
  intros H1 H2 Hget. split; [|split].
  - rewrite !api_news_obj.
    destruct (negb (Js.truthy (NEWS_API_KEY env))); [reflexivity|].
    destruct (news_request _ _ _ _ _ _ _ _ _) as [request|e]; [|reflexivity].
    cbn zeta. rewrite H1, H2. cbn [fst].
    now apply news_response_agree.
  - rewrite !api_news_obj.
    destruct (negb (Js.truthy (NEWS_API_KEY env))); [reflexivity|].
    destruct (news_request _ _ _ _ _ _ _ _ _) as [request|e]; [|reflexivity].
    cbn zeta. rewrite H1, H2. cbn [fst].
    now apply news_response_agree.
  - intros records Hcfg Hq Hrec. rewrite Hget in Hrec.
    rewrite (api_news_reaches_upstream _ Hcfg Hq H2).
    now destruct (news_response_records _ _ Hrec) as (r & -> & _ & Harts).
Qed.

Lemma normalization_deterministic_witness :
  response_articles
    (fst (api_news (always (payload [[(k_title, JStr (str "T"))]]))
                   news_env (JObj [])))
  = response_articles
      (fst (api_news
              (always (JObj [(str "articles",
                              JArr [JObj [(k_title, JStr (str "T"))]] [])]))
              news_env (JObj []))).
Proof.
  apply (@normalization_deterministic
           (always (payload [[(k_title, JStr (str "T"))]]))
           (always (JObj [(str "articles",
                           JArr [JObj [(k_title, JStr (str "T"))]] [])]))
           news_env []
           (payload [[(k_title, JStr (str "T"))]])
           (JObj [(str "articles", JArr [JObj [(k_title, JStr (str "T"))]] [])])).
  - intros c. reflexivity.
  - intros c. reflexivity.
  - reflexivity.
Defined.

(* ===================================================================== *)
(** ** The enrich endpoint *)
(* ===================================================================== *)

Lemma text_blob_strings t d c :
  text_blob (JStr t) (JStr d) (JStr c) = Ok (article_text t d c).
Proof.
  unfold text_blob, article_text.
  destruct t as [|t0 t], d as [|d0 d], c as [|c0 c]; reflexivity.
Qed.

Lemma api_ai_enrich_strings up env body :
  enrich_configured env -> string_valued body ->
  api_ai_enrich up env (JObj body) =
  let c := chat_request (article_text (param body (str "title") [])
                                      (param body (str "description") [])
                                      (param body (str "content") [])) in
  match up c with
  | Throw _ => (enrich_failed, [c])
  | Ok completion =>
      (match enrich_response completion with
       | Ok r => r
       | Throw _ => enrich_failed
       end, [c])
  end.
Proof.
  intros Hcfg Hb. rewrite api_ai_enrich_obj.
  apply enrich_configured_client in Hcfg. rewrite Hcfg.
  rewrite !default_param by assumption.
  now rewrite text_blob_strings.
Qed.

(** C7. For every input whose fields are strings (or absent), the text
    sent to the model is the concatenation of the non-empty fields among
    title, description and content, in that order, separated by blank
    lines; it is empty when all three are. *)
Theorem text_blob_sent
    (upstream : UpstreamCall -> result JsVal) (env : Env) (req_body : props_t) :
  enrich_configured env -> string_valued req_body ->
  snd (api_ai_enrich upstream env (JObj req_body))
  = [chat_request (article_text (param req_body (str "title") [])
                                (param req_body (str "description") [])
                                (param req_body (str "content") []))]
  /\ article_text [] [] [] = [].
Proof.
  intros Hcfg Hb. split; [|reflexivity].
  rewrite api_ai_enrich_strings by assumption.
  cbn zeta. now destruct (upstream _).
Qed.

Lemma enrich_env_configured : enrich_configured enrich_env.
Proof.
  split; [reflexivity|]. exists (str "sk-test"). split; [reflexivity | discriminate].
Defined.

Lemma sample_body_strings : string_valued sample_body.
Proof. repeat constructor; eexists; reflexivity. Defined.

Lemma text_blob_sent_witness :
  snd (api_ai_enrich (fun _ => Throw UpstreamFailure) enrich_env (JObj sample_body))
  = [chat_request (str "Title" ++ nl ++ nl ++ str "Body")]
  /\ article_text [] [] [] = [].
Proof.
  apply (@text_blob_sent (fun _ => Throw UpstreamFailure) enrich_env sample_body
           enrich_env_configured sample_body_strings).
Defined.

Lemma completion_of_content text :
  completion_content (completion_of text) = Ok (JStr text).
Proof. reflexivity. Qed.

Lemma enrich_response_parse_failure completion text e :
  completion_content completion = Ok (JStr text) ->
  trim text <> [] -> JSON.parse (trim text) = Throw e ->
  enrich_response completion = Ok (mkResponse 200 parse_fallback).
Proof.
  intros Hc Hne Hparse. unfold enrich_response, raw_of.
  rewrite Hc. cbn [rbind Js.nullish call_trim].
  unfold Js.or. cbn [Js.truthy].
  destruct (trim text) as [|u s] eqn:E; [congruence|].
  unfold parse_or_fallback. cbn [Js.to_string rbind]. rewrite Hparse.
  reflexivity.
Qed.

(** C5 (as the code has it). For every completion text that is not blank
    and fails to parse as JSON after trimming, the response is a 200 with
    the fixed fallback result; the parse failure is not surfaced as an
    error. *)
Theorem parse_failure_gives_fallback
    (upstream : UpstreamCall -> result JsVal) (env : Env) (req_body : props_t)
    (completion : JsVal) (text : jsstring) (e : exn) :
  enrich_configured env -> string_valued req_body ->
  (forall c, upstream c = Ok completion) ->
  completion_content completion = Ok (JStr text) ->
  trim text <> [] ->
  JSON.parse (trim text) = Throw e ->
  fst (api_ai_enrich upstream env (JObj req_body))
  = mkResponse 200 parse_fallback.
Proof.
  intros Hcfg Hb Hup Hc Hne Hparse.
  rewrite api_ai_enrich_strings by assumption.
  cbn zeta. rewrite Hup. cbn [fst].
  now rewrite (enrich_response_parse_failure _ Hc Hne Hparse).
Qed.

Lemma parse_failure_gives_fallback_witness :
  fst (api_ai_enrich (always (completion_of (str " Sorry, I cannot. ")))
                     enrich_env (JObj sample_body))
  = mkResponse 200 parse_fallback.
Proof.
  apply (@parse_failure_gives_fallback
           (always (completion_of (str " Sorry, I cannot. ")))
           enrich_env sample_body
           (completion_of (str " Sorry, I cannot. "))
           (str " Sorry, I cannot. ") SyntaxError
           enrich_env_configured sample_body_strings).
  - intros c. reflexivity.
  - reflexivity.
  - vm_compute. discriminate.
  - vm_compute. reflexivity.
Defined.

(** C5 as stated fails: the completion text of two spaces trims to the
    empty string, which is not JSON, yet the response is not the fallback
    result. *)
Lemma blank_text_is_not_fallback :
  JSON.parse (trim (str "  ")) = Throw SyntaxError
  /\ fst (api_ai_enrich (always (completion_of (str "  ")))
                        enrich_env (JObj sample_body))
     = mkResponse 200 empty_result
  /\ mkResponse 200 empty_result <> mkResponse 200 parse_fallback.
Proof.
  split; [vm_compute; reflexivity|].
  split; [vm_compute; reflexivity|].
  vm_compute. discriminate.
Qed.

Lemma trimStart_blank t :
  Forall (fun u => is_white_space u = true) t -> trimStart t = [].
Proof. induction 1 as [|u t Hu _ IH]; simpl; [reflexivity|]. now rewrite Hu. Qed.

Lemma trim_blank t :
  Forall (fun u => is_white_space u = true) t -> trim t = [].
Proof. intros H. unfold trim. now rewrite (trimStart_blank H). Qed.

(** A completion without choices has no content. *)
Lemma no_choices_no_content ps :
  Js.own (str "choices") ps = JUndefined
  \/ Js.own (str "choices") ps = JNull
  \/ (exists named, Js.own (str "choices") ps = JArr [] named) ->
  completion_content (JObj ps) = Ok JUndefined.
Proof.
  unfold completion_content. cbn [Js.get rbind].
  intros [-> | [-> | [named ->]]]; reflexivity.
Qed.

Lemma raw_of_blank completion content :
  completion_content completion = Ok content -> blank_content content ->
  raw_of completion = Ok (JStr (str "{}")).
Proof.
  intros Hc Hblank. unfold raw_of. rewrite Hc. cbn [rbind].
  destruct Hblank as [Hn | (t & -> & Ht)].
  - now rewrite Hn.
  - cbn [Js.nullish call_trim rbind]. now rewrite (trim_blank Ht).
Qed.

(** C10. When the completion has no choices, or its message text is
    missing, empty or white space only, the text parsed is the literal
    [{}], which parses, and the response is a 200 with an empty summary,
    sentiment ["Neutral"] and three empty takeaways: not the parse-error
    fallback. *)
Theorem blank_completion_gives_empty_result
    (upstream : UpstreamCall -> result JsVal) (env : Env) (req_body : props_t)
    (completion content : JsVal) :
  enrich_configured env -> string_valued req_body ->
  (forall c, upstream c = Ok completion) ->
  completion_content completion = Ok content ->
  blank_content content ->
  raw_of completion = Ok (JStr (str "{}"))
  /\ JSON.parse (str "{}") = Ok (JObj [])
  /\ fst (api_ai_enrich upstream env (JObj req_body)) = mkResponse 200 empty_result
  /\ fst (api_ai_enrich upstream env (JObj req_body)) <> mkResponse 200 parse_fallback.
Proof.
  intros Hcfg Hb Hup Hc Hblank.
  pose proof (raw_of_blank _ Hc Hblank) as Hraw.
  assert (Hr : fst (api_ai_enrich upstream env (JObj req_body))
               = mkResponse 200 empty_result).
  { rewrite api_ai_enrich_strings by assumption.
    cbn zeta. rewrite Hup. cbn [fst].
    unfold enrich_response. rewrite Hraw. reflexivity. }
  split; [assumption|]. split; [reflexivity|]. split; [assumption|].
  rewrite Hr. vm_compute. discriminate.
Qed.

Lemma blank_completion_gives_empty_result_witness :
  fst (api_ai_enrich (always (JObj [(str "choices", JArr [] [])]))
                     enrich_env (JObj sample_body))
  = mkResponse 200 empty_result.
Proof.
  apply (@blank_completion_gives_empty_result
           (always (JObj [(str "choices", JArr [] [])]))
           enrich_env sample_body
           (JObj [(str "choices", JArr [] [])]) JUndefined
           enrich_env_configured sample_body_strings).
  - intros c. reflexivity.
  - reflexivity.
  - left. reflexivity.
Defined.

Example white_space_only_completion :
  fst (api_ai_enrich (always (completion_of (str "   ")))
                     enrich_env (JObj sample_body))
  = mkResponse 200 empty_result.
Proof. vm_compute. reflexivity. Qed.

(* ===================================================================== *)
(** ** The shape of an enrichment result *)
(* ===================================================================== *)

(** C1 on the code. Three completion texts whose response is a 200 that is
    not an [EnrichmentResult]: a [takeaways] that is a string is cut to a
    string of three code units; a [takeaways] of three numbers is passed
    on as it is; a top-level array is sent back as it is (the three
    properties assigned to it are not written by [res.json]). *)
Theorem enrich_shape_not_ensured :
  enrich_on (dq "{'takeaways':'abcdef'}")
  = mkResponse 200
      (JObj [ (str "takeaways", JStr (str "abc"));
              (str "summary100", JStr []);
              (str "sentiment", JStr (str "Neutral")) ])
  /\ EnrichmentResult (body (enrich_on (dq "{'takeaways':'abcdef'}"))) = false
  /\ enrich_on (dq "{'takeaways':[true,false,null]}")
     = mkResponse 200
         (JObj [ (str "takeaways", JArr [JBool true; JBool false; JNull] []);
                 (str "summary100", JStr []);
                 (str "sentiment", JStr (str "Neutral")) ])
  /\ EnrichmentResult (body (enrich_on (dq "{'takeaways':[true,false,null]}"))) = false
  /\ enrich_on (dq "[]") = mkResponse 200 (JArr [] [])
  /\ EnrichmentResult (body (enrich_on (dq "[]"))) = false.
Proof. repeat split; vm_compute; reflexivity. Qed.

(** What "ensure shape" does ensure on a parsed object: the summary is a
    string of at most 900 code units and the sentiment is one of the three
    labels; [takeaways] is an array of three elements, or, when the model
    sent a string, a string of at most three code units. *)
Lemma repair_takeaways_shape t r :
  repair_takeaways t = Ok r ->
  (exists l, r = JArr l [] /\ List.length l = 3)
  \/ (exists s, r = JStr s /\ List.length s <= 3).
Proof.
  destruct t; simpl; try discriminate.
  - intros [= <-]. right. eexists. split; [reflexivity|].
    unfold slice. rewrite length_firstn. lia.
  - intros [= <-]. left. eexists. split; [reflexivity|].
    unfold slice. cbn [skipn Nat.sub].
    rewrite length_firstn, length_app, length_firstn.
    change (List.length three_empty) with 3. lia.
Qed.

Lemma ensure_shape_object ps r :
  ensure_shape (JObj ps) = Ok r ->
  exists ps',
    r = JObj ps'
    /\ (exists s, Js.own (str "summary100") ps' = JStr s /\ List.length s <= 900)
    /\ Js.includes allowed (Js.own (str "sentiment") ps') = true
    /\ ((exists l named, Js.own (str "takeaways") ps' = JArr l named
                         /\ List.length l = 3)
        \/ (exists s, Js.own (str "takeaways") ps' = JStr s
                      /\ List.length s <= 3)).
Proof.
  unfold ensure_shape. cbn [Js.get rbind].
  destruct (Js.to_string (Js.or (Js.own (str "summary100") ps) (JStr [])))
    as [text|]; [|discriminate].
  cbn [rbind Js.set Js.get].
  set (ps1 := Js.update (str "summary100") (JStr (slice text 0 900)) ps).
  assert (H1 : exists s, Js.own (str "summary100") ps1 = JStr s
                         /\ List.length s <= 900).
  { exists (slice text 0 900). subst ps1. rewrite own_update_same.
    split; [reflexivity|]. unfold slice. rewrite length_firstn. lia. }
  set (ps2 := if negb (Js.includes allowed (Js.own (str "sentiment") ps1))
              then Js.update (str "sentiment") (JStr (str "Neutral")) ps1
              else ps1).
  assert (Hp2 : (if negb (Js.includes allowed (Js.own (str "sentiment") ps1))
                 then Ok (JObj (Js.update (str "sentiment") (JStr (str "Neutral")) ps1))
                 else Ok (JObj ps1)) = Ok (JObj ps2)).
  { subst ps2. now destruct (negb _). }
  rewrite Hp2. clear Hp2. cbn [rbind Js.get Js.set].
  assert (H2 : (exists s, Js.own (str "summary100") ps2 = JStr s
                          /\ List.length s <= 900)
               /\ Js.includes allowed (Js.own (str "sentiment") ps2) = true).
  { subst ps2.
    destruct (Js.includes allowed (Js.own (str "sentiment") ps1)) eqn:E; cbn [negb].
    - split; assumption.
    - rewrite own_update_other by reflexivity. rewrite own_update_same.
      split; [assumption | reflexivity]. }
  destruct H2 as [H2 H3]. clearbody ps2. clear H1 ps1.
  destruct (takeaways_ok (Js.own (str "takeaways") ps2)) eqn:Hok; cbn [negb].
  - intros [= <-]. exists ps2. repeat split; try assumption.
    left. unfold takeaways_ok in Hok.
    destruct (Js.own (str "takeaways") ps2); try discriminate.
    apply Nat.eqb_eq in Hok. eauto.
  - destruct (repair_takeaways _) as [repaired|] eqn:Hrep; [|discriminate].
    cbn [rbind]. intros [= <-].
    exists (Js.update (str "takeaways") repaired ps2).
    rewrite !own_update_other by reflexivity. rewrite own_update_same.
    repeat split; try assumption.
    destruct (repair_takeaways_shape _ Hrep) as [(l & -> & Hl) | (s & -> & Hs)];
      [left | right]; eauto.
Qed.

(** The examples the specification lists for the coercion. *)
Example sentiment_angry_is_coerced :
  enrich_on (dq "{'summary100':'s','sentiment':'Angry','takeaways':['a','b','c']}")
  = mkResponse 200
      (JObj [ (str "summary100", JStr (str "s"));
              (str "sentiment", JStr (str "Neutral"));
              (str "takeaways",
               JArr [JStr (str "a"); JStr (str "b"); JStr (str "c")] []) ]).
Proof. vm_compute. reflexivity. Qed.

Example five_takeaways_are_cut :
  enrich_on (dq "{'summary100':'s','sentiment':'Positive','takeaways':['a','b','c','d','e']}")
  = mkResponse 200
      (JObj [ (str "summary100", JStr (str "s"));
              (str "sentiment", JStr (str "Positive"));
              (str "takeaways",
               JArr [JStr (str "a"); JStr (str "b"); JStr (str "c")] []) ]).
Proof. vm_compute. reflexivity. Qed.

Example one_takeaway_is_padded :
  enrich_on (dq "{'summary100':'s','sentiment':'Negative','takeaways':['a']}")
  = mkResponse 200
      (JObj [ (str "summary100", JStr (str "s"));
              (str "sentiment", JStr (str "Negative"));
              (str "takeaways", JArr [JStr (str "a"); JStr []; JStr []] []) ]).
Proof. vm_compute. reflexivity. Qed.

(** A completion that is JSON but not an object or array ends in the
    generic failure: a property cannot be created on a primitive. *)
Example primitive_completion_fails :
  enrich_on (dq "42") = enrich_failed /\ enrich_on (dq "null") = enrich_failed.
Proof. split; vm_compute; reflexivity. Qed.

(* ===================================================================== *)
(** ** Further properties: how a handler ends *)
(* ===================================================================== *)

Lemma api_news_outcome up env query : news_outcome up env (api_news up env query).
Proof.
  unfold api_news, try_catch, news_body.
  repeat (rewrite bind_lift;
          destruct (Js.destructure query _ _); [|apply news_threw_early]).
  destruct (Js.truthy (NEWS_API_KEY env)) eqn:Hk; cbn [negb].
  2: { now apply news_no_key. }
  rewrite bind_lift.
  destruct (news_request _ _ _ _ _ _ _ _ _) as [request|e];
    [|apply news_threw_early].
  rewrite bind_call. cbn [app].
  destruct (up _) as [data|e] eqn:Hup; [|now apply news_upstream_failed with e].
  unfold lift. destruct (news_response data) as [r|e] eqn:Hr.
  - now apply news_answered with data.
  - now apply news_bad_payload with data e.
Qed.

Lemma api_ai_enrich_outcome up env req_body :
  enrich_outcome up env (api_ai_enrich up env req_body).
Proof.
  unfold api_ai_enrich, try_catch, enrich_body.
  repeat (rewrite bind_lift;
          destruct (Js.destructure req_body _ _); [|apply enrich_threw_early]).
  match goal with |- context [if ?b then _ else _] => destruct b eqn:Hc end.
  { apply enrich_no_provider. intros H.
    apply enrich_configured_client in H. congruence. }
  apply enrich_configured_client in Hc.
  rewrite bind_lift.
  destruct (text_blob _ _ _) as [text|e]; [|apply enrich_threw_early].
  rewrite bind_call. cbn [app].
  destruct (up _) as [completion|e] eqn:Hup;
    [|now apply enrich_upstream_failed with e].
  unfold lift. destruct (enrich_response completion) as [r|e] eqn:Hr.
  - now apply enrich_answered with completion.
  - now apply enrich_bad_completion with completion e.
Qed.

Lemma news_response_status data r : news_response data = Ok r -> status r = 200.
Proof.
  unfold news_response.
  destruct (Js.get data (str "articles")); [|discriminate]. cbn [rbind].
  destruct (array_map _ _); [|discriminate]. cbn [rbind].
  destruct (Js.get data (str "totalResults")); [|discriminate]. cbn [rbind].
  now intros [= <-].
Qed.

Lemma enrich_response_status completion r :
  enrich_response completion = Ok r -> status r = 200.
Proof.
  unfold enrich_response.
  destruct (raw_of completion); [|discriminate]. cbn [rbind].
  destruct (ensure_shape _); [|discriminate]. cbn [rbind].
  now intros [= <-].
Qed.

(** X1. No retries: whatever the request, the configuration and the
    upstream's answer, a run of either handler makes at most one upstream
    call. *)
Theorem at_most_one_upstream_call
    (upstream : UpstreamCall -> result JsVal) (env : Env) (query req_body : JsVal) :
  List.length (snd (api_news upstream env query)) <= 1
  /\ List.length (snd (api_ai_enrich upstream env req_body)) <= 1.
Proof.
  split.
  - destruct (api_news_outcome upstream env query); simpl; lia.
  - destruct (api_ai_enrich_outcome upstream env req_body); simpl; lia.
Qed.

(** X2. The news endpoint answers in one of three ways only: a 200 built
    from the payload of its single successful upstream call; the 500 with
    the missing-key message, with no call made; or the 500 with the fixed
    text "Failed to fetch news", in which nothing of the cause appears. *)
Theorem news_response_taxonomy
    (upstream : UpstreamCall -> result JsVal) (env : Env) (query : JsVal) :
  (status (fst (api_news upstream env query)) = 200
   /\ exists c data,
        snd (api_news upstream env query) = [c] /\ upstream c = Ok data
        /\ news_response data = Ok (fst (api_news upstream env query)))
  \/ (fst (api_news upstream env query)
      = mkResponse 500 (error_body news_key_missing)
      /\ snd (api_news upstream env query) = [])
  \/ fst (api_news upstream env query) = news_failed.
Proof.
  destruct (api_news_outcome upstream env query) as [| | | |c data r Hk Hup Hr];
    cbn [fst snd]; auto.
  left. split; [now apply news_response_status with data|]. eauto.
Qed.

(** X3. The handler of [POST /api/ai/enrich], run on the body the JSON
    parser hands it as [req.body], ends in one of three ways only: a 200
    built from the completion of its single successful upstream call; the
    500 with the provider message, with no call made; or the 500 with the
    fixed text "Failed to enrich article".  A request the body parser
    answers itself (one whose body is too large or is not JSON) never
    reaches the handler and is not a run of it. *)
Theorem enrich_response_taxonomy
    (upstream : UpstreamCall -> result JsVal) (env : Env) (req_body : JsVal) :
  (status (fst (api_ai_enrich upstream env req_body)) = 200
   /\ exists c completion,
        snd (api_ai_enrich upstream env req_body) = [c]
        /\ upstream c = Ok completion
        /\ enrich_response completion
           = Ok (fst (api_ai_enrich upstream env req_body)))
  \/ (fst (api_ai_enrich upstream env req_body)
      = mkResponse 500 (error_body provider_missing)
      /\ snd (api_ai_enrich upstream env req_body) = [])
  \/ fst (api_ai_enrich upstream env req_body) = enrich_failed.
Proof.
  destruct (api_ai_enrich_outcome upstream env req_body)
    as [| | | |c completion r Hk Hup Hr]; cbn [fst snd]; auto.
  left. split; [now apply enrich_response_status with completion|]. eauto.
Qed.

Lemma full_env_news : news_configured full_env.
Proof. exists (str "KEY"). split; [reflexivity | discriminate]. Defined.

Lemma full_env_enrich : enrich_configured full_env.
Proof.
  split; [reflexivity|]. exists (str "sk-test"). split; [reflexivity | discriminate].
Defined.

(** X4. When the upstream call fails, for whatever reason, each endpoint
    answers its generic 500 after exactly one call: the exception does not
    reach the caller and nothing is retried. *)
Theorem upstream_failure_is_generic
    (upstream : UpstreamCall -> result JsVal) (env : Env)
    (query req_body : props_t) :
  news_configured env -> enrich_configured env ->
  string_valued query -> string_valued req_body ->
  (forall c, exists e, upstream c = Throw e) ->
  (exists c, api_news upstream env (JObj query) = (news_failed, [c]))
  /\ (exists c, api_ai_enrich upstream env (JObj req_body) = (enrich_failed, [c])).
Proof.
  intros Hn He Hq Hb Hup. split.
  - rewrite api_news_obj.
    pose proof (proj1 (news_configured_truthy env) Hn) as Ht. rewrite Ht.
    cbn [negb]. destruct Hn as (key & Hkey & _).
    unfold NEWS_API_KEY. rewrite Hkey. cbn [env_value].
    rewrite !default_param by assumption.
    match goal with |- context [news_request (JStr ?k) (JStr ?a) (JStr ?b) (JStr ?c)
                                  (JStr ?d) (JStr ?e) (JStr ?f) (JStr ?g) (JStr ?h)] =>
      destruct (news_request_strings k a b c d e f g h) as (params & -> & _)
    end.
    cbn zeta. cbn [fst snd].
    match goal with |- context [upstream ?c] =>
      destruct (Hup c) as [e ->]; now exists c
    end.
  - rewrite api_ai_enrich_strings by assumption. cbn zeta.
    match goal with |- context [upstream ?c] =>
      destruct (Hup c) as [e ->]; now exists c
    end.
Qed.

Lemma upstream_failure_is_generic_witness :
  (exists c, api_news failing full_env (JObj []) = (news_failed, [c]))
  /\ (exists c, api_ai_enrich failing full_env (JObj sample_body)
                = (enrich_failed, [c])).
Proof.
  apply (@upstream_failure_is_generic failing full_env [] sample_body
           full_env_news full_env_enrich).
  - constructor.
  - exact sample_body_strings.
  - intros c. exists UpstreamFailure. reflexivity.
Defined.

(* ===================================================================== *)
(** ** Further properties: the news payload *)
(* ===================================================================== *)

Lemma normalizeArticle_defined a :
  Js.nullish a = false -> exists ps, normalizeArticle a = Ok (JObj ps).
Proof. destruct a; simpl; try discriminate; intros _; eexists; reflexivity. Qed.

Lemma normalizeArticle_nullish a :
  Js.nullish a = true -> normalizeArticle a = Throw TypeError.
Proof. destruct a; simpl; try discriminate; reflexivity. Qed.

Lemma map_result_normalize_cases elems :
  if existsb Js.nullish elems
  then map_result normalizeArticle elems = Throw TypeError
  else exists ys, map_result normalizeArticle elems = Ok ys
                  /\ List.length ys = List.length elems
                  /\ Forall (fun y => exists ps, y = JObj ps) ys.
Proof.
  induction elems as [|a elems IH]; cbn [existsb map_result].
  - exists []. repeat split. constructor.
  - destruct (Js.nullish a) eqn:Ha; cbn [orb].
    + now rewrite (@normalizeArticle_nullish _ Ha).
    + destruct (@normalizeArticle_defined _ Ha) as [ps ->]. cbn [rbind].
      destruct (existsb Js.nullish elems).
      * now rewrite IH.
      * destruct IH as (ys & -> & Hlen & Hall). cbn [rbind].
        exists (JObj ps :: ys). repeat split; [simpl; lia|].
        constructor; eauto.
Qed.

Lemma response_articles_json t a :
  a <> JUndefined ->
  response_articles
    (res_json (JObj [ (str "totalResults", Js.or t (JNum (S754_zero false)));
                      (str "articles", a) ]))
  = JSON.serialize a.
Proof.
  intros Ha. unfold response_articles, res_json. cbn [body].
  rewrite serialize_obj. cbn [filter].
  rewrite written_or by discriminate.
  replace (written (str "articles", a)) with true
    by (unfold written; cbn [snd]; now destruct a).
  reflexivity.
Qed.

(** X5. A payload that lists no articles (the member is missing, [null] or
    otherwise falsy, as with a body that was not JSON) is answered with a
    200 whose [articles] is the empty array and whose [totalResults] is the
    payload's count, or [0] when that is falsy. *)
Theorem news_without_articles
    (upstream : UpstreamCall -> result JsVal) (env : Env) (query : props_t)
    (data listed total : JsVal) :
  news_configured env -> string_valued query ->
  (forall c, upstream c = Ok data) ->
  Js.get data (str "articles") = Ok listed -> Js.truthy listed = false ->
  Js.get data (str "totalResults") = Ok total ->
  fst (api_news upstream env (JObj query))
  = mkResponse 200
      (JObj [ (str "totalResults",
               JSON.serialize (Js.or total (JNum (S754_zero false))));
              (str "articles", JArr [] []) ]).
Proof.
  intros Hcfg Hq Hup Hl Hf Ht.
  rewrite (@api_news_reaches_upstream _ _ _ _ Hcfg Hq Hup).
  unfold news_response. rewrite Hl. cbn [rbind].
  rewrite (@or_falsy _ _ Hf). cbn [array_map map_result rbind].
  rewrite Ht. cbn [rbind]. unfold res_json.
  rewrite serialize_obj. cbn [filter].
  rewrite written_or by discriminate. reflexivity.
Qed.

Lemma news_without_articles_witness :
  fst (api_news (always (JStr (str "<html>busy</html>"))) news_env (JObj []))
  = mkResponse 200
      (JObj [ (str "totalResults", JNum (S754_zero false));
              (str "articles", JArr [] []) ]).
Proof.
  apply (@news_without_articles (always (JStr (str "<html>busy</html>")))
           news_env [] (JStr (str "<html>busy</html>")) JUndefined JUndefined).
  - exists (str "KEY"). split; [reflexivity | discriminate].
  - constructor.
  - intros c. reflexivity.
  - reflexivity.
  - reflexivity.
  - reflexivity.
Defined.

(** X6. One unusable record fails the whole response: when [articles] is
    not an array, or is an array with a [null] element, the answer is the
    generic 500; otherwise it is a 200 with exactly one article per
    element, so nothing is filtered or merged. *)
Theorem news_unusable_records
    (upstream : UpstreamCall -> result JsVal) (env : Env) (query : props_t)
    (data listed : JsVal) :
  news_configured env -> string_valued query ->
  (forall c, upstream c = Ok data) ->
  Js.get data (str "articles") = Ok listed -> Js.truthy listed = true ->
  match listed with
  | JArr elems _ =>
      if existsb Js.nullish elems
      then fst (api_news upstream env (JObj query)) = news_failed
      else status (fst (api_news upstream env (JObj query))) = 200
           /\ exists arts,
                response_articles (fst (api_news upstream env (JObj query)))
                = JArr arts []
                /\ List.length arts = List.length elems
  | _ => fst (api_news upstream env (JObj query)) = news_failed
  end.
Proof.
  intros Hcfg Hq Hup Hl Ht.
  rewrite (@api_news_reaches_upstream _ _ _ _ Hcfg Hq Hup).
  unfold news_response. rewrite Hl. cbn [rbind].
  rewrite (@or_truthy _ _ Ht).
  destruct listed; try reflexivity.
  cbn [array_map].
  pose proof (map_result_normalize_cases elems) as Hm.
  destruct (existsb Js.nullish elems).
  - now rewrite Hm.
  - destruct Hm as (ys & -> & Hlen & _). cbn [rbind].
    destruct (@get_total _ _ _ Hl) as [t ->]. cbn [rbind].
    split; [reflexivity|].
    rewrite response_articles_json by discriminate.
    rewrite serialize_arr. eexists. split; [reflexivity|].
    now rewrite length_map.
Qed.

Lemma news_unusable_records_witness :
  fst (api_news (always null_record_payload) news_env (JObj [])) = news_failed.
Proof.
  apply (@news_unusable_records (always null_record_payload) news_env []
           null_record_payload
           (JArr [JObj [(k_title, JStr (str "T"))]; JNull] [])).
  - exists (str "KEY"). split; [reflexivity | discriminate].
  - constructor.
  - intros c. reflexivity.
  - reflexivity.
  - reflexivity.
Defined.

Lemma truthy_or a b : Js.truthy (Js.or a b) = Js.truthy a || Js.truthy b.
Proof. unfold Js.or. now destruct (Js.truthy a) eqn:E. Qed.

Lemma truthy_default x : Js.truthy (Js.default x (JStr [])) = Js.truthy x.
Proof. now destruct x. Qed.

Lemma news_request_headlines key q country category from to pageSize page sortBy
    from' to' sortBy' :
  Js.truthy (Js.or country category) = true ->
  news_request key q country category from to pageSize page sortBy
  = news_request key q country category from' to' pageSize page sortBy'.
Proof. intros H. unfold news_request. now rewrite H. Qed.

(** X7. In headlines mode the date range and the sort order are dropped:
    when [country] or [category] is set, giving [from], [to] or [sortBy] any
    value changes neither the upstream call nor the response. *)
Theorem headlines_ignore_dates_and_order
    (upstream : UpstreamCall -> result JsVal) (env : Env) (query : props_t)
    (k : jsstring) (v : JsVal) :
  In k [str "from"; str "to"; str "sortBy"] ->
  Js.truthy (Js.or (Js.own (str "country") query)
                   (Js.own (str "category") query)) = true ->
  api_news upstream env (JObj (Js.update k v query))
  = api_news upstream env (JObj query).
Proof.
  intros Hk Hmode. rewrite !api_news_obj.
  destruct (negb (Js.truthy (NEWS_API_KEY env))); [reflexivity|].
  assert (Hc : Js.truthy (Js.or (Js.default (Js.own (str "country") query) (JStr []))
                                (Js.default (Js.own (str "category") query) (JStr [])))
               = true).
  { rewrite truthy_or, !truthy_default. now rewrite <- truthy_or. }
  repeat (destruct Hk as [<-|Hk];
    [try rewrite (@own_update_other (str "q")) by reflexivity;
     try rewrite (@own_update_other (str "country")) by reflexivity;
     try rewrite (@own_update_other (str "category")) by reflexivity;
     try rewrite (@own_update_other (str "from")) by reflexivity;
     try rewrite (@own_update_other (str "to")) by reflexivity;
     try rewrite (@own_update_other (str "pageSize")) by reflexivity;
     try rewrite (@own_update_other (str "page")) by reflexivity;
     try rewrite (@own_update_other (str "sortBy")) by reflexivity;
     now rewrite (@news_request_headlines _ _ _ _ _ _ _ _ _
                    (Js.default (Js.own (str "from") query) (JStr []))
                    (Js.default (Js.own (str "to") query) (JStr []))
                    (Js.default (Js.own (str "sortBy") query) (JStr (str "publishedAt")))
                    Hc)|]).
  contradiction.
Qed.

Lemma headlines_ignore_dates_and_order_witness :
  api_news failing news_env
    (JObj (Js.update (str "from") (JStr (str "2024-01-01"))
             [(str "country", JStr (str "us"))]))
  = api_news failing news_env (JObj [(str "country", JStr (str "us"))]).
Proof.
  apply (@headlines_ignore_dates_and_order failing news_env
           [(str "country", JStr (str "us"))] (str "from")
           (JStr (str "2024-01-01"))).
  - simpl. left. reflexivity.
  - reflexivity.
Defined.

(** X8. [normalizeArticle] is not idempotent: applied to an article it
    produced, whose [source] is by then a plain string, it keeps the seven
    other fields and replaces [source] with ["Unknown"]. *)
Theorem renormalized_article (ps : props_t) (name : jsstring) :
  Js.own k_source (normalized_props ps) = JStr name ->
  Js.own k_source (normalized_props (normalized_props ps)) = JStr (str "Unknown")
  /\ forall k, In k [k_title; k_author; k_description; k_content; k_url;
                     k_urlToImage; k_publishedAt] ->
       Js.own k (normalized_props (normalized_props ps))
       = Js.own k (normalized_props ps).
Proof.
  intros Hsrc.
  assert (Hor : forall x d, Js.or (Js.or x d) d = Js.or x d).
  { intros x d. unfold Js.or at 2 3.
    destruct (Js.truthy x) eqn:E; [now apply or_truthy|].
    unfold Js.or. now destruct (Js.truthy d). }
  split.
  - unfold normalized_props at 1. rewrite Hsrc. reflexivity.
  - intros k Hk.
    repeat (destruct Hk as [<-|Hk]; [try apply Hor; reflexivity|]).
    contradiction.
Qed.

Lemma renormalized_article_witness :
  Js.own k_source (normalized_props (normalized_props bbc_record))
  = JStr (str "Unknown").
Proof.
  apply (@renormalized_article bbc_record (str "BBC")). reflexivity.
Defined.

(* ===================================================================== *)
(** ** Further properties: the enrich request *)
(* ===================================================================== *)

(** X9. With an API key set, the provider name decides: unset, empty, or
    [openai] in any letter case, the request reaches the upstream; any
    other name gives the configuration error without a call. *)
Theorem provider_selection
    (upstream : UpstreamCall -> result JsVal) (env : Env) (key : jsstring)
    (req_body : props_t) :
  env_OPENAI_API_KEY env = Some key -> key <> [] -> string_valued req_body ->
  if names_openai (env_AI_PROVIDER env)
  then List.length (snd (api_ai_enrich upstream env (JObj req_body))) = 1
  else api_ai_enrich upstream env (JObj req_body)
       = (mkResponse 500 (error_body provider_missing), []).
Proof.
  intros Hkey Hne Hb.
  destruct (names_openai (env_AI_PROVIDER env)) eqn:Hp.
  - assert (Hcfg : enrich_configured env).
    { split; [|eauto]. unfold AI_PROVIDER. unfold names_openai in Hp.
      destruct (env_AI_PROVIDER env) as [[|c s]|]; try reflexivity.
      now apply eqb_eq. }
    rewrite api_ai_enrich_strings by assumption. cbn zeta.
    now destruct (upstream _).
  - assert (Hcfg : ~ enrich_configured env).
    { intros [Hprov _]. unfold AI_PROVIDER in Hprov. unfold names_openai in Hp.
      destruct (env_AI_PROVIDER env) as [[|c s]|]; try discriminate.
      rewrite Hprov in Hp. now rewrite eqb_refl in Hp. }
    rewrite api_ai_enrich_obj.
    match goal with |- context [if ?b then _ else _] => destruct b eqn:E end;
      [reflexivity|].
    now apply enrich_configured_client in E.
Qed.

Lemma provider_selection_witness :
  List.length (snd (api_ai_enrich failing full_env (JObj sample_body))) = 1.
Proof.
  apply (@provider_selection failing full_env (str "sk-test") sample_body).
  - reflexivity.
  - discriminate.
  - exact sample_body_strings.
Defined.

Lemma trimEnd_snoc l c :
  trimEnd (l ++ [c]) = if is_white_space c then trimEnd l else l ++ [c].
Proof.
  unfold trimEnd. rewrite rev_app_distr. cbn [rev app trimStart].
  destruct (is_white_space c); [reflexivity|].
  cbn [rev]. now rewrite rev_involutive.
Qed.

(** X10. The prompt embeds the article text as it is, between a fixed
    head and a fixed tail: the final [trim] never removes any of it. *)
Theorem prompt_embeds_text (text : jsstring) :
  prompt_of text = prompt_head ++ text ++ prompt_tail.
Proof.
  unfold prompt_of, trim.
  assert (Hstart : forall rest,
            trimStart (nl ++ str "You are an assistant that analyzes news articles."
                          ++ rest)
            = str "You are an assistant that analyzes news articles." ++ rest).
  { intros rest. reflexivity. }
  rewrite Hstart.
  set (full := prompt_head ++ text ++ prompt_tail).
  assert (Hfull : str "You are an assistant that analyzes news articles." ++ nl
    ++ str "Given the article text below, return a JSON object with:" ++ nl
    ++ dq "- 'summary100': a concise summary under 100 words." ++ nl
    ++ dq "- 'sentiment': one of 'Positive', 'Negative', or 'Neutral'." ++ nl
    ++ dq "- 'takeaways': exactly 3 short bullet points (strings)." ++ nl
    ++ nl
    ++ str "Article:" ++ nl
    ++ text ++ nl
    ++ nl
    ++ str "Respond ONLY with valid JSON (no backticks, no extra text)." ++ nl
    = full ++ nl).
  { subst full. unfold prompt_head, prompt_tail.
    repeat rewrite <- app_assoc. reflexivity. }
  rewrite Hfull. unfold nl at 1. rewrite trimEnd_snoc.
  change (is_white_space 10%N) with true. cbv iota.
  assert (Hdot : full
    = (prompt_head ++ text ++ nl ++ nl
       ++ str "Respond ONLY with valid JSON (no backticks, no extra text)")
      ++ [46%N]).
  { subst full. unfold prompt_tail.
    repeat rewrite <- app_assoc. reflexivity. }
  rewrite Hdot at 1. rewrite trimEnd_snoc.
  change (is_white_space 46%N) with false. cbv iota.
  symmetry. exact Hdot.
Qed.

(** X11. The enrich endpoint does not use [url]: whatever value the body
    carries for it, the upstream call and the response are the same. *)
Theorem enrich_ignores_url
    (upstream : UpstreamCall -> result JsVal) (env : Env) (req_body : props_t)
    (url : JsVal) :
  api_ai_enrich upstream env (JObj (Js.update (str "url") url req_body))
  = api_ai_enrich upstream env (JObj req_body).
Proof.
  rewrite !api_ai_enrich_obj.
  now rewrite !own_update_other by reflexivity.
Qed.

(* ===================================================================== *)
(** ** Further properties: ensure shape *)
(* ===================================================================== *)

Lemma ensure_shape_obj ps :
  ensure_shape (JObj ps) = let? ps' := shape_props ps in Ok (JObj ps').
Proof.
  unfold ensure_shape, shape_props. cbn [Js.get rbind].
  fold k_summary100 k_sentiment k_takeaways.
  destruct (Js.to_string _) as [text|]; [|reflexivity].
  cbn [rbind Js.set Js.get].
  destruct (negb (Js.includes allowed _)); cbn [rbind Js.get Js.set];
    (destruct (negb (takeaways_ok _)); [|reflexivity]);
    (destruct (repair_takeaways _); reflexivity).
Qed.

Lemma ensure_shape_arr elems named :
  ensure_shape (JArr elems named)
  = let? named' := shape_props named in Ok (JArr elems named').
Proof.
  unfold ensure_shape, shape_props. cbn [Js.get rbind].
  fold k_summary100 k_sentiment k_takeaways.
  destruct (Js.to_string _) as [text|]; [|reflexivity].
  cbn [rbind Js.set Js.get].
  destruct (negb (Js.includes allowed _)); cbn [rbind Js.get Js.set];
    (destruct (negb (takeaways_ok _)); [|reflexivity]);
    (destruct (repair_takeaways _); reflexivity).
Qed.

Lemma update_same k v ps : Js.lookup k ps = Some v -> Js.update k v ps = ps.
Proof.
  induction ps as [|[k' x] ps IH]; simpl; [discriminate|].
  destruct (JSString.eqb k k').
  - now intros [= ->].
  - intros H. now rewrite IH.
Qed.

Lemma own_of_lookup k v ps : Js.lookup k ps = Some v -> Js.own k ps = v.
Proof. unfold Js.own. now intros ->. Qed.

Lemma lookup_of_own k v ps :
  Js.own k ps = v -> v <> JUndefined -> Js.lookup k ps = Some v.
Proof. unfold Js.own. destruct (Js.lookup k ps); congruence. Qed.

Lemma settled_fixed ps : settled ps -> shape_props ps = Ok ps.
Proof.
  intros ((s & Hs & Hlen) & Hsent & Htk). unfold shape_props.
  rewrite (@own_of_lookup _ _ _ Hs).
  assert (Hor : Js.or (JStr s) (JStr []) = JStr s).
  { unfold Js.or. now destruct s. }
  rewrite Hor. cbn [Js.to_string rbind].
  assert (Hsl : slice s 0 900 = s).
  { unfold slice. cbn [skipn Nat.sub]. apply firstn_all2. lia. }
  rewrite Hsl, (@update_same _ _ _ Hs). cbn zeta.
  rewrite Hsent. cbn [negb].
  destruct Htk as [(l & named & Hl & Hlen3) | (t & Ht & Hlen3)].
  - rewrite (@own_of_lookup _ _ _ Hl). cbn [takeaways_ok].
    now rewrite (proj2 (Nat.eqb_eq _ _) Hlen3).
  - rewrite (@own_of_lookup _ _ _ Ht). cbn [takeaways_ok negb].
    assert (Hor' : Js.or (JStr t) (JArr [] []) = JStr t).
    { unfold Js.or. destruct t; [discriminate | reflexivity]. }
    rewrite Hor'. unfold repair_takeaways.
    change (Js.to_string (JArr three_empty [])) with (Ok (str ",,")).
    cbn [rbind].
    assert (Ht3 : slice (slice t 0 3 ++ str ",,") 0 3 = t).
    { unfold slice. cbn [skipn Nat.sub].
      rewrite (firstn_all2 (n := 3) t) by lia.
      rewrite firstn_app. replace (3 - List.length t) with 0 by lia.
      rewrite firstn_0, app_nil_r. apply firstn_all2. lia. }
    now rewrite Ht3, (@update_same _ _ _ Ht).
Qed.

Lemma shape_props_settled ps ps' : shape_props ps = Ok ps' -> settled ps'.
Proof.
  unfold shape_props.
  destruct (Js.to_string _) as [text|]; [|discriminate]. cbn [rbind].
  set (ps1 := Js.update k_summary100 (JStr (slice text 0 900)) ps).
  assert (H1 : exists s, Js.lookup k_summary100 ps1 = Some (JStr s)
                         /\ List.length s <= 900).
  { exists (slice text 0 900). subst ps1. rewrite lookup_update_same.
    split; [reflexivity|]. unfold slice. rewrite length_firstn. lia. }
  set (ps2 := if negb (Js.includes allowed (Js.own k_sentiment ps1))
              then Js.update k_sentiment (JStr (str "Neutral")) ps1
              else ps1).
  assert (H2 : (exists s, Js.lookup k_summary100 ps2 = Some (JStr s)
                          /\ List.length s <= 900)
               /\ Js.includes allowed (Js.own k_sentiment ps2) = true).
  { subst ps2.
    destruct (Js.includes allowed (Js.own k_sentiment ps1)) eqn:E; cbn [negb].
    - split; assumption.
    - rewrite lookup_update_other by reflexivity. rewrite own_update_same.
      split; [assumption | reflexivity]. }
  destruct H2 as [H2 H3]. clearbody ps2. clear H1 ps1.
  destruct (takeaways_ok (Js.own k_takeaways ps2)) eqn:Hok; cbn [negb].
  - intros [= <-]. repeat split; try assumption.
    left. unfold takeaways_ok in Hok.
    destruct (Js.own k_takeaways ps2) as [| | | | |l named|] eqn:Ho;
      try discriminate.
    apply Nat.eqb_eq in Hok. exists l, named. split; [|assumption].
    apply lookup_of_own; [assumption | discriminate].
  - destruct (repair_takeaways _) as [repaired|] eqn:Hrep; [|discriminate].
    cbn [rbind]. intros [= <-].
    split; [|split].
    + now rewrite lookup_update_other by reflexivity.
    + now rewrite own_update_other by reflexivity.
    + rewrite lookup_update_same.
      revert Hrep. unfold Js.or.
      destruct (Js.own k_takeaways ps2) as [| |b|x|t|l named|o] eqn:Ho;
        cbn [Js.truthy repair_takeaways]; try (destruct b);
        try (destruct (Number.truthy x)); try discriminate.
      * intros [= <-]. left. do 2 eexists. split; [reflexivity|]. reflexivity.
      * intros [= <-]. left. do 2 eexists. split; [reflexivity|]. reflexivity.
      * intros [= <-]. left. do 2 eexists. split; [reflexivity|]. reflexivity.
      * intros [= <-]. left. do 2 eexists. split; [reflexivity|]. reflexivity.
      * destruct t as [|c t].
        { intros [= <-]. left. do 2 eexists. split; reflexivity. }
        change (Js.to_string (JArr three_empty [])) with (Ok (str ",,")).
        cbn [rbind]. intros [= <-]. right. eexists. split; [reflexivity|].
        destruct t as [|c1 [|c2 t]]; reflexivity.
      * intros [= <-]. left. do 2 eexists. split; [reflexivity|].
        unfold slice. cbn [skipn Nat.sub].
        rewrite length_firstn, length_app, length_firstn.
        change (List.length three_empty) with 3. lia.
Qed.

(** X12. "Ensure shape" is idempotent: applied to a value it produced, it
    returns that value unchanged. *)
Theorem ensure_shape_idempotent (parsed shaped : JsVal) :
  ensure_shape parsed = Ok shaped -> ensure_shape shaped = Ok shaped.
Proof.
  destruct parsed as [| | | | |elems named|ps]; try discriminate.
  - rewrite ensure_shape_arr.
    destruct (shape_props named) as [named'|] eqn:E; [|discriminate].
    cbn [rbind]. intros [= <-]. rewrite ensure_shape_arr.
    now rewrite (settled_fixed (shape_props_settled _ E)).
  - rewrite ensure_shape_obj.
    destruct (shape_props ps) as [ps'|] eqn:E; [|discriminate].
    cbn [rbind]. intros [= <-]. rewrite ensure_shape_obj.
    now rewrite (settled_fixed (shape_props_settled _ E)).
Qed.

Lemma ensure_shape_idempotent_witness :
  ensure_shape
    (JObj [ (k_takeaways, JStr (str "ab,"));
            (k_summary100, JStr []);
            (k_sentiment, JStr (str "Neutral")) ])
  = Ok (JObj [ (k_takeaways, JStr (str "ab,"));
               (k_summary100, JStr []);
               (k_sentiment, JStr (str "Neutral")) ]).
Proof.
  apply (@ensure_shape_idempotent (JObj [(k_takeaways, JStr (str "ab"))])).
  reflexivity.
Defined.

Lemma lookup_serialized k v ps :
  Js.lookup k ps = Some v -> v <> JUndefined ->
  Js.lookup k (map serialize_member (filter written ps))
  = Some (JSON.serialize v).
Proof.
  intros Hl Hv. induction ps as [|[k' x] ps IH]; [discriminate|].
  cbn [Js.lookup] in Hl. cbn [filter].
  destruct (JSString.eqb k k') eqn:E.
  - injection Hl as ->.
    replace (written (k', v)) with true
      by (unfold written; cbn [snd]; now destruct v).
    cbn [map serialize_member fst snd Js.lookup]. unfold serialize_member at 1.
    cbn [fst snd Js.lookup]. now rewrite E.
  - destruct (written (k', x)); [|now apply IH].
    cbn [map]. unfold serialize_member at 1. cbn [fst snd Js.lookup].
    rewrite E. now apply IH.
Qed.

Lemma settled_serialized ps :
  settled ps -> settled (map serialize_member (filter written ps)).
Proof.
  intros ((s & Hs & Hlen) & Hsent & Htk). split; [|split].
  - exists s. split; [|assumption].
    now rewrite (@lookup_serialized _ _ _ Hs) by discriminate.
  - destruct (Js.own k_sentiment ps) as [| | | |x| |] eqn:Ho; try discriminate.
    apply lookup_of_own in Ho; [|discriminate].
    unfold Js.own. now rewrite (@lookup_serialized _ _ _ Ho) by discriminate.
  - destruct Htk as [(l & named & Hl & Hlen3) | (t & Ht & Hlen3)].
    + left. exists (map serialize_element l), [].
      rewrite (@lookup_serialized _ _ _ Hl) by discriminate.
      split; [reflexivity|]. now rewrite length_map.
    + right. exists t.
      now rewrite (@lookup_serialized _ _ _ Ht) by discriminate.
Qed.

Lemma ensure_shape_to_object parsed ps :
  ensure_shape parsed = Ok (JObj ps) -> settled ps.
Proof.
  destruct parsed as [| | | | |elems named|ps0]; try discriminate.
  - rewrite ensure_shape_arr. destruct (shape_props named); discriminate.
  - rewrite ensure_shape_obj.
    destruct (shape_props ps0) as [ps'|] eqn:E; [|discriminate].
    cbn [rbind]. intros [= <-]. now apply shape_props_settled with ps0.
Qed.

Lemma enrich_response_settled completion r ps :
  enrich_response completion = Ok r -> body r = JObj ps -> settled ps.
Proof.
  unfold enrich_response.
  destruct (raw_of completion) as [raw|]; [|discriminate]. cbn [rbind].
  destruct (ensure_shape (parse_or_fallback raw)) as [parsed|] eqn:E;
    [|discriminate].
  cbn [rbind]. intros [= <-]. unfold res_json. cbn [body].
  destruct parsed as [| | |x| | |ps0]; try discriminate.
  - destruct x; discriminate.
  - rewrite serialize_obj. intros [= <-].
    apply settled_serialized.
    now apply ensure_shape_to_object with (parse_or_fallback raw).
Qed.

(** X13. For every request, configuration and upstream, a 200 of the
    enrich endpoint whose body is an object has a [summary100] that is a
    string of at most 900 code units, a [sentiment] that is one of the
    three labels, and a [takeaways] that is an array of three elements or
    a string of three code units. *)
Theorem enrich_success_guarantee
    (upstream : UpstreamCall -> result JsVal) (env : Env) (req_body : JsVal)
    (ps : props_t) :
  status (fst (api_ai_enrich upstream env req_body)) = 200 ->
  body (fst (api_ai_enrich upstream env req_body)) = JObj ps ->
  settled ps.
Proof.
  destruct (api_ai_enrich_outcome upstream env req_body)
    as [| | | |c completion r Hcfg Hup Hr]; cbn [fst]; try discriminate.
  intros _. now apply enrich_response_settled with completion.
Qed.

Lemma enrich_success_guarantee_witness :
  settled [ (k_summary100, JStr (str "12.5"));
            (k_sentiment, JStr (str "Neutral"));
            (k_takeaways, JArr [JStr (str "a"); JStr []; JStr []] []) ].
Proof.
  apply (@enrich_success_guarantee
           (always (completion_of
              (dq "{'summary100':12.5,'sentiment':'Angry','takeaways':['a']}")))
           enrich_env (JObj sample_body)).
  - reflexivity.
  - vm_compute. reflexivity.
Defined.

Lemma EnrichmentResult_settled ps : EnrichmentResult (JObj ps) = true -> settled ps.
Proof.
  unfold EnrichmentResult. fold k_summary100 k_sentiment k_takeaways.
  intros H. apply andb_true_iff in H as [H Htk].
  apply andb_true_iff in H as [Hs Hsent].
  split; [|split; [assumption|]].
  - destruct (Js.own k_summary100 ps) as [| | | |s| |] eqn:Ho; try discriminate.
    exists s. split; [apply lookup_of_own; [assumption|discriminate]|].
    now apply Nat.leb_le.
  - left. destruct (Js.own k_takeaways ps) as [| | | | |l named|] eqn:Ho;
      try discriminate.
    apply andb_true_iff in Htk as [Hlen _]. apply Nat.eqb_eq in Hlen.
    exists l, named. split; [apply lookup_of_own; [assumption|discriminate]|assumption].
Qed.

(** X14. A completion that is already a valid result is passed through:
    when the text parses to an object that satisfies [EnrichmentResult],
    the response is a 200 carrying that object, its other members
    included. *)
Theorem valid_result_passes_through
    (upstream : UpstreamCall -> result JsVal) (env : Env) (req_body : props_t)
    (completion : JsVal) (text : jsstring) (ps : props_t) :
  enrich_configured env -> string_valued req_body ->
  (forall c, upstream c = Ok completion) ->
  completion_content completion = Ok (JStr text) ->
  JSON.parse (trim text) = Ok (JObj ps) ->
  EnrichmentResult (JObj ps) = true ->
  fst (api_ai_enrich upstream env (JObj req_body))
  = mkResponse 200 (JSON.serialize (JObj ps)).
Proof.
  intros Hcfg Hb Hup Hc Hparse Hvalid.
  rewrite api_ai_enrich_strings by assumption.
  cbn zeta. rewrite Hup. cbn [fst].
  unfold enrich_response, raw_of. rewrite Hc.
  cbn [rbind Js.nullish call_trim]. unfold Js.or. cbn [Js.truthy].
  destruct (trim text) as [|u s] eqn:E; [discriminate|].
  unfold parse_or_fallback. cbn [Js.to_string rbind]. rewrite Hparse.
  rewrite ensure_shape_obj.
  now rewrite (settled_fixed (EnrichmentResult_settled _ Hvalid)).
Qed.

Lemma valid_result_passes_through_witness :
  fst (api_ai_enrich (always (completion_of valid_text)) enrich_env
                     (JObj sample_body))
  = mkResponse 200 (JSON.serialize (JObj valid_props)).
Proof.
  apply (@valid_result_passes_through (always (completion_of valid_text))
           enrich_env sample_body (completion_of valid_text) valid_text
           valid_props enrich_env_configured sample_body_strings).
  - intros c. reflexivity.
  - reflexivity.
  - vm_compute. reflexivity.
  - vm_compute. reflexivity.
Defined.

(* ===================================================================== *)
(** ** Further properties: the frontend *)
(* ===================================================================== *)

Lemma lookup_update j k x ps :
  Js.lookup j (Js.update k x ps)
  = if JSString.eqb j k then Some x else Js.lookup j ps.
Proof.
  destruct (JSString.eqb j k) eqn:E.
  - apply eqb_eq in E. subst j. apply lookup_update_same.
  - now apply lookup_update_other.
Qed.

Lemma lookup_copy_if_set j f k params :
  Js.lookup j (App.copy_if_set f k params)
  = if Js.truthy (Js.own k f) && JSString.eqb j k then Some (Js.own k f)
    else Js.lookup j params.
Proof.
  unfold App.copy_if_set, set_if.
  destruct (Js.truthy (Js.own k f)); cbn [andb]; [apply lookup_update | reflexivity].
Qed.

Ltac decide_keys :=
  repeat match goal with
  | |- context [JSString.eqb (str ?a) (str ?b)] =>
      let v := eval vm_compute in (JSString.eqb (str a) (str b)) in
      change (JSString.eqb (str a) (str b)) with v
  end;
  rewrite ?andb_false_r, ?andb_true_r.

Lemma own_fetch_params f k :
  In k [str "q"; str "country"; str "category"; str "from"; str "to";
        str "pageSize"] ->
  Js.own k (App.fetch_params f)
  = if Js.truthy (Js.own k f) then Js.own k f else JUndefined.
Proof.
  intros Hk. unfold Js.own at 1, App.fetch_params.
  rewrite !lookup_copy_if_set. cbn [Js.lookup].
  repeat (destruct Hk as [<-|Hk];
          [decide_keys; now destruct (Js.truthy _)|]).
  contradiction.
Qed.

Lemma own_fetch_params_other f k :
  In k [str "page"; str "sortBy"] -> Js.own k (App.fetch_params f) = JUndefined.
Proof.
  intros Hk. unfold Js.own at 1, App.fetch_params.
  rewrite !lookup_copy_if_set. cbn [Js.lookup].
  repeat (destruct Hk as [<-|Hk]; [decide_keys; reflexivity|]).
  contradiction.
Qed.

Lemma default_sent_param f k d :
  string_valued f ->
  Js.default (if Js.truthy (Js.own k f) then Js.own k f else JUndefined) (JStr d)
  = JStr (sent_param f k d).
Proof.
  intros Hf. unfold sent_param, param, Js.own.
  destruct (Js.lookup k f) as [v|] eqn:E; [|reflexivity].
  destruct (@lookup_string_valued _ _ _ Hf E) as [s ->].
  now destruct s.
Qed.

Lemma sent_param_nil f k : sent_param f k [] = param f k [].
Proof. unfold sent_param. now destruct (param f k []). Qed.

Lemma string_valued_update k s ps :
  string_valued ps -> string_valued (Js.update k (JStr s) ps).
Proof.
  induction 1 as [|[k' x] ps Hx Hps IH]; simpl.
  - repeat constructor. now exists s.
  - destruct (JSString.eqb k k'); constructor; auto. now exists s.
Qed.

Lemma keys_update k x ps :
  In k (map fst ps) -> map fst (Js.update k x ps) = map fst ps.
Proof.
  induction ps as [|[k' v] ps IH]; simpl; [contradiction|].
  destruct (JSString.eqb k k') eqn:E; simpl; [reflexivity|].
  intros [->|Hin]; [now rewrite eqb_refl in E|]. now rewrite IH.
Qed.

Lemma filters_ok_initial : filters_ok App.initial_filters.
Proof.
  repeat split. repeat constructor; eexists; reflexivity.
Qed.

Lemma filters_ok_handle f e :
  App.from_controls e -> filters_ok f -> filters_ok (App.handle f e).
Proof.
  intros He (Hs & Hk & Hp). destruct e as [name value|];
    [|apply filters_ok_initial].
  cbn [App.handle App.from_controls] in *. unfold App.handleChange.
  split; [now apply string_valued_update|]. split.
  - rewrite keys_update; [assumption|]. rewrite Hk.
    unfold App.input_names in He. simpl in He |- *. tauto.
  - rewrite lookup_update_other; [assumption|].
    unfold App.input_names in He.
    repeat (destruct He as [<-|He]; [reflexivity|]). contradiction.
Qed.

Lemma filters_ok_after events :
  Forall App.from_controls events -> filters_ok (App.filters_after events).
Proof.
  unfold App.filters_after.
  generalize App.initial_filters, filters_ok_initial.
  induction events as [|e events IH]; intros f Hf Hall; [assumption|].
  inversion Hall; subst. cbn [fold_left].
  apply IH; [|assumption]. now apply filters_ok_handle.
Qed.

Lemma sample_events_from_controls : Forall App.from_controls sample_events.
Proof. repeat constructor; simpl; tauto. Defined.

(** X15. The [filters] state of the page: after any sequence of changes
    of the five controls and resets, every filter is a string, the six
    keys are there in their order, and [pageSize] is still ["9"]. *)
Theorem filters_invariant (events : list App.ui_event) :
  Forall App.from_controls events ->
  string_valued (App.filters_after events)
  /\ map fst (App.filters_after events)
     = [str "q"; str "country"; str "category"; str "from"; str "to";
        str "pageSize"]
  /\ param (App.filters_after events) (str "pageSize") [] = str "9".
Proof.
  intros H. destruct (filters_ok_after H) as (Hs & Hk & Hp).
  repeat split; [assumption | assumption |].
  unfold param. now rewrite Hp.
Qed.

Lemma filters_invariant_witness :
  param (App.filters_after sample_events) (str "pageSize") [] = str "9".
Proof.
  apply (@filters_invariant sample_events sample_events_from_controls).
Defined.

Lemma api_news_from_frontend up env key f :
  env_NEWS_API_KEY env = Some key -> key <> [] -> string_valued f ->
  let q := param f (str "q") [] in
  let country := param f (str "country") [] in
  let category := param f (str "category") [] in
  let from := param f (str "from") [] in
  let to := param f (str "to") [] in
  let pageSize := sent_param f (str "pageSize") (str "10") in
  exists params,
    snd (api_news up env (JObj (App.fetch_params f)))
    = [AxiosGet (if headlines_mode country category
                 then top_headlines_url else everything_url) params]
    /\ forall k,
         Js.lookup k params =
         if headlines_mode country category
         then headlines_forwarded key q country category pageSize (str "1") k
         else search_forwarded key q from to (str "publishedAt") pageSize
                               (str "1") k.
Proof.
  intros Hkey Hne Hf. intros.
  rewrite api_news_obj. unfold NEWS_API_KEY. rewrite Hkey. cbn [env_value].
  replace (Js.truthy (JStr key)) with true
    by (destruct key; [congruence | reflexivity]).
  cbn [negb].
  rewrite !own_fetch_params by (simpl; tauto).
  rewrite !own_fetch_params_other by (simpl; tauto).
  rewrite !default_sent_param by assumption.
  rewrite !sent_param_nil. cbn [Js.default].
  destruct (news_request_strings key q country category from to pageSize
              (str "1") (str "publishedAt")) as (params & Hreq & Hparams).
  subst q country category from to pageSize.
  rewrite Hreq. exists params. split; [|exact Hparams].
  cbn [fst snd]. destruct (up _); reflexivity.
Qed.

(** X16. From the controls to the news provider: for the filters reached
    by any sequence of control events, the request [fetchNews] sends makes
    the backend call the headlines endpoint exactly when [country] or
    [category] is set, the search endpoint otherwise (with ["news"] for an
    empty keyword), always with [pageSize] 9 on page 1. *)
Theorem frontend_request_reaches_upstream
    (upstream : UpstreamCall -> result JsVal) (env : Env) (key : jsstring)
    (events : list App.ui_event) :
  env_NEWS_API_KEY env = Some key -> key <> [] ->
  Forall App.from_controls events ->
  let f := App.filters_after events in
  let q := param f (str "q") [] in
  let country := param f (str "country") [] in
  let category := param f (str "category") [] in
  let from := param f (str "from") [] in
  let to := param f (str "to") [] in
  exists params,
    snd (api_news upstream env (JObj (App.fetch_params f)))
    = [AxiosGet (if headlines_mode country category
                 then top_headlines_url else everything_url) params]
    /\ forall k,
         Js.lookup k params =
         if headlines_mode country category
         then headlines_forwarded key q country category (str "9") (str "1") k
         else search_forwarded key q from to (str "publishedAt") (str "9")
                               (str "1") k.
Proof.
  intros Hkey Hne Hev. intros.
  destruct (filters_ok_after Hev) as (Hs & _ & Hp).
  destruct (@api_news_from_frontend upstream env key f Hkey Hne Hs)
    as (params & Hcalls & Hparams).
  exists params. split; [exact Hcalls|].
  intros k. rewrite Hparams.
  replace (sent_param f (str "pageSize") (str "10")) with (str "9");
    [reflexivity|].
  unfold sent_param, param. subst f. now rewrite Hp.
Qed.

Lemma frontend_request_reaches_upstream_witness :
  exists params,
    snd (api_news failing news_env
           (JObj (App.fetch_params (App.filters_after sample_events))))
    = [AxiosGet top_headlines_url params]
    /\ forall k,
         Js.lookup k params
         = headlines_forwarded (str "KEY") [] (str "us") [] (str "9") (str "1") k.
Proof.
  apply (@frontend_request_reaches_upstream failing news_env (str "KEY")
           sample_events).
  - reflexivity.
  - discriminate.
  - exact sample_events_from_controls.
Defined.

Lemma news_response_body data r :
  news_response data = Ok r ->
  exists t ys, r = res_json (JObj [ (str "totalResults",
                                     Js.or t (JNum (S754_zero false)));
                                    (str "articles", JArr ys []) ]).
Proof.
  unfold news_response.
  destruct (Js.get data (str "articles")) as [listed|]; [|discriminate].
  cbn [rbind]. unfold array_map.
  destruct (Js.or listed (JArr [] [])); try discriminate.
  destruct (map_result normalizeArticle elems) as [ys|]; [|discriminate].
  cbn [rbind].
  destruct (Js.get data (str "totalResults")) as [t|]; [|discriminate].
  cbn [rbind]. intros [= <-]. eauto.
Qed.

(** X17. Whatever the backend answers, the value [fetchNews] gives to
    [setNews] is an array, so [news.length] and [news.map] of the render
    are defined. *)
Theorem fetched_news_is_array
    (upstream : UpstreamCall -> result JsVal) (env : Env) (filters : props_t) :
  Js.isArray (App.fetchNews (fun query => fst (api_news upstream env query))
                            filters) = true.
Proof.
  unfold App.fetchNews. cbn zeta.
  destruct (api_news_outcome upstream env (JObj (App.fetch_params filters)))
    as [| | | |c data r Hk Hup Hr]; cbn [fst]; try reflexivity.
  destruct (news_response_body _ Hr) as (t & ys & ->).
  unfold res_json. rewrite serialize_obj. cbn [filter].
  rewrite written_or by discriminate.
  change (written (str "articles", JArr ys [])) with true.
  reflexivity.
Qed.

Lemma or_string_or_absent ps k :
  string_or_absent ps k -> Js.or (Js.own k ps) (JStr []) = JStr (param ps k []).
Proof.
  unfold string_or_absent, Js.own, param.
  intros [-> | [s ->]]; [reflexivity|]. now destruct s.
Qed.

(** X18. From an upstream record to the model: for a record whose title,
    description, content and url are strings or absent, [summarize] on the
    article sent for it posts nothing when the url is missing or empty;
    otherwise, on the assumption that the JSON posted is what the handler
    reads as [req.body] (the body parser delivers it when it is within the
    parser's size limit, and answers the request itself when it is not),
    the handler of a configured backend makes one model call, whose text is
    the record's non-empty title, description and content joined by blank
    lines. *)
Theorem summarize_sends_article_text
    (upstream : UpstreamCall -> result JsVal) (env : Env) (record : props_t) :
  enrich_configured env ->
  string_or_absent record k_title -> string_or_absent record k_description ->
  string_or_absent record k_content -> string_or_absent record k_url ->
  let article := JObj (sent_article record) in
  if nonempty (param record k_url [])
  then exists posted,
         App.summarize_request article = Some posted
         /\ snd (api_ai_enrich upstream env (JSON.serialize posted))
            = [chat_request (article_text (param record k_title [])
                                          (param record k_description [])
                                          (param record k_content []))]
  else App.summarize_request article = None.
Proof.
  intros Hcfg Ht Hd Hc Hu. cbn zeta.
  unfold App.summarize_request. cbn [Js.get_opt].
  rewrite sent_article_cases.
  rewrite (or_string_or_absent Ht), (or_string_or_absent Hd),
          (or_string_or_absent Hc).
  destruct Hu as [Hu | [u Hu]].
  - replace (param record k_url []) with (@nil code_unit)
      by (unfold param; now rewrite Hu).
    replace (Js.own k_url record) with JUndefined
      by (unfold Js.own; now rewrite Hu).
    reflexivity.
  - replace (param record k_url []) with u
      by (unfold param; now rewrite Hu).
    replace (Js.own k_url record) with (JStr u)
      by (unfold Js.own; now rewrite Hu).
    destruct u as [|c0 u]; [reflexivity|].
    cbn [nonempty]. eexists. split; [reflexivity|].
    set (t := param record k_title []).
    set (d := param record k_description []).
    set (c := param record k_content []).
    change (snd (api_ai_enrich upstream env
                   (JObj [ (str "title", JStr t); (str "description", JStr d);
                           (str "content", JStr c);
                           (str "url", JStr (c0 :: u)) ]))
            = [chat_request (article_text t d c)]).
    rewrite api_ai_enrich_strings;
      [|assumption | repeat constructor; eexists; reflexivity].
    cbn zeta.
    change (param _ (str "title") []) with t.
    change (param _ (str "description") []) with d.
    change (param _ (str "content") []) with c.
    now destruct (upstream _).
Qed.

Lemma summarize_sends_article_text_witness :
  exists posted,
    App.summarize_request (JObj (sent_article linked_record)) = Some posted
    /\ snd (api_ai_enrich failing enrich_env (JSON.serialize posted))
       = [chat_request (str "Title" ++ nl ++ nl ++ str "Body")].
Proof.
  apply (@summarize_sends_article_text failing enrich_env linked_record
           enrich_env_configured).
  - right. eexists. reflexivity.
  - left. reflexivity.
  - right. eexists. reflexivity.
  - right. eexists. reflexivity.
Defined.

(** X19. What a card shows after [summarize]: nothing is stored when the
    article has no url; otherwise the value stored is the local fallback,
    or a 200 body of a configured backend, which, when an object, has the
    summary, sentiment and takeaways described in X13. *)
Theorem summarize_stores
    (upstream : UpstreamCall -> result JsVal) (env : Env) (article : JsVal) :
  match App.summarize (fun b => fst (api_ai_enrich upstream env b)) article with
  | None => Js.truthy (Js.get_opt article (str "url")) = false
  | Some stored =>
      stored = App.summarize_fallback
      \/ (enrich_configured env
          /\ forall ps, stored = JObj ps -> settled ps)
  end.
Proof.
  unfold App.summarize, App.summarize_request.
  destruct (Js.truthy (Js.get_opt article (str "url"))); cbn [negb];
    [|reflexivity].
  cbn zeta.
  destruct (api_ai_enrich_outcome upstream env
              (JSON.serialize
                 (JObj [ (str "title", Js.get_opt article (str "title"));
                         (str "description", Js.get_opt article (str "description"));
                         (str "content", Js.get_opt article (str "content"));
                         (str "url", Js.get_opt article (str "url")) ])))
    as [| | | |c completion r Hcfg Hup Hr]; cbn [fst]; try (left; reflexivity).
  unfold App.is_2xx. rewrite (@enrich_response_status _ _ Hr).
  change (Nat.leb 200 200 && Nat.ltb 200 300) with true. cbv iota.
  right. split; [assumption|]. intros ps Hps.
  now apply enrich_response_settled with completion r.
Qed.
